(** * cvatjs/src/api-implementation.js: filter validation, server delegation
      and the context wrapper of the job and task API.

    A shallow embedding of the module and the properties its specification
    states about it.  A filter is a plain object: the finite map of its own
    properties, visited by [for ... in] in an order the map does not keep and
    the page gives.  A checker table is an object literal: the finite map of
    the checkers written in it, under which [prop in fields] and
    [fields[prop]] also find what every object inherits from
    [Object.prototype].  Asynchronous functions are run to completion, one
    after the other: [await] is sequential composition. *)

From Stdlib Require Import QArith Ascii String.
From stdpp Require Import gmap strings list fin_maps pretty.

Local Open Scope string_scope.
Local Open Scope Z_scope.

(** ** JavaScript values *)

(** A number is a finite value, one of the two infinities, or NaN.  A finite
    number is given by the rational it denotes; [-0] is not told from [0]. *)
Inductive number :=
  | Finite (q : Q)
  | Infinity (negative : bool)
  | NaN.

(** Primitives are themselves; an object (array, function, class instance) is
    the reference that identifies it. *)
Inductive value :=
  | VUndefined
  | VNull
  | VBool (b : bool)
  | VNumber (n : number)
  | VString (s : string)
  | VObject (ref : positive).

Definition VInt (z : Z) : value := VNumber (Finite (inject_Z z)).

(** [Number.isInteger] *)
Definition Number_isInteger (n : number) : bool :=
  match n with
  | Finite q => (Qnum q mod Z.pos (Qden q) =? 0)
  | _ => false
  end.

(** [a === b] on numbers: NaN differs from everything, itself included. *)
Definition number_equals (a b : number) : bool :=
  match a, b with
  | Finite p, Finite q => Qeq_bool p q
  | Infinity s, Infinity t => Bool.eqb s t
  | _, _ => false
  end.

(** [a === b] *)
Definition strict_equals (a b : value) : bool :=
  match a, b with
  | VUndefined, VUndefined => true
  | VNull, VNull => true
  | VBool x, VBool y => Bool.eqb x y
  | VNumber x, VNumber y => number_equals x y
  | VString x, VString y => String.eqb x y
  | VObject x, VObject y => Pos.eqb x y
  | _, _ => false
  end.

(** ToBoolean, as applied by [!], [? :] and [&&]. *)
Definition truthy (v : value) : bool :=
  match v with
  | VUndefined | VNull => false
  | VBool b => b
  | VNumber (Finite q) => negb (Qnum q =? 0)
  | VNumber (Infinity _) => true
  | VNumber NaN => false
  | VString s => negb (String.eqb s EmptyString)
  | VObject _ => true
  end.

(** ** Exceptions *)

Inductive exn :=
  | ArgumentError (message : string)
  | ScriptingError (message : string)
  | TypeError
  | ReferenceError (name : string)
  | ProxyError (code : nat).

Definition result (A : Type) : Type := exn + A.

(** ** The checkers (lines 15-38) *)

Definition isBoolean (v : value) : bool :=
  match v with VBool _ => true | _ => false end.

Definition isInteger (v : value) : bool :=
  match v with VNumber n => Number_isInteger n | _ => false end.

(** [isEnum], called with the enumeration as [this]: some own property of the
    enumeration is strictly equal to the value. *)
Definition isEnum (this : gmap string value) (v : value) : bool :=
  existsb (fun kv => strict_equals (snd kv) v) (map_to_list this).

Definition isString (v : value) : bool :=
  match v with VString _ => true | _ => false end.

(** ** The messages of checkFilter (lines 44-50) *)

Definition dquote : string := String "034"%char EmptyString.

Definition quoted (s : string) : string := dquote ++ s ++ dquote.

Definition unsupported (prop : string) : exn :=
  ArgumentError
    ("Unsupported filter property has been recieved: " ++ quoted prop).

Definition unsatisfied (prop : string) : exn :=
  ArgumentError
    ("Received filter property " ++ prop ++ " was not satisfied for checker").

(** ** Objects used as maps *)

(** [Object.prototype.hasOwnProperty.call(o, k)]; and [k in o] for a filter
    and a name that no object inherits: self, taskID, jobID, search, id. *)
Definition has_property {V} (k : string) (o : gmap string V) : bool :=
  bool_decide (is_Some (o !! k)).

(** [o.k] *)
Definition get_field (o : gmap string value) (k : string) : value :=
  default VUndefined (o !! k).

(** [Object.keys(o)] *)
Definition Object_keys {V} (o : gmap string V) : list string :=
  (map_to_list o).*1.

(** ** What every object inherits *)

(** The properties of [Object.prototype]. *)
Inductive member :=
  | Object_constructor
  | Object_hasOwnProperty
  | Object_isPrototypeOf
  | Object_propertyIsEnumerable
  | Object_toLocaleString
  | Object_toString_
  | Object_valueOf
  | Object_proto
  | Object_defineGetter
  | Object_defineSetter
  | Object_lookupGetter
  | Object_lookupSetter.

Definition Object_prototype : gmap string member :=
  list_to_map
    [("constructor", Object_constructor);
     ("hasOwnProperty", Object_hasOwnProperty);
     ("isPrototypeOf", Object_isPrototypeOf);
     ("propertyIsEnumerable", Object_propertyIsEnumerable);
     ("toLocaleString", Object_toLocaleString);
     ("toString", Object_toString_);
     ("valueOf", Object_valueOf);
     ("__proto__", Object_proto);
     ("__defineGetter__", Object_defineGetter);
     ("__defineSetter__", Object_defineSetter);
     ("__lookupGetter__", Object_lookupGetter);
     ("__lookupSetter__", Object_lookupSetter)].

(** ** What the module takes from its surroundings *)

Inductive cvat_class := Task | Job | User.

(** The page the module runs in: the objects it is handed and reads, the
    classes and enumerations of [window.cvat], and the conversions of the
    language and of [URLSearchParams]. *)
Class Host := {
  (** [o instanceof window.cvat.classes.C], for the object behind a reference *)
  has_class : positive -> cvat_class -> bool;
  (** [o.k], for the object behind a reference *)
  prop : positive -> string -> value;
  (** [new window.cvat.classes.C(data)], which is taken to return *)
  new_ : cvat_class -> value -> value;
  (** [task.jobs] of a Task object, element by element *)
  Task_jobs : value -> list value;
  (** [window.cvat.enums.TaskStatus] and [window.cvat.enums.TaskMode] *)
  enums_TaskStatus : gmap string value;
  enums_TaskMode : gmap string value;
  (** [window.cvat.config] *)
  window_cvat_config : value;
  (** [this] of the call of [implementAPI], which its arrow functions see *)
  implementAPI_this : value;
  (** a name that no declaration of the module binds, looked up globally *)
  global : string -> option value;
  (** [new F(...args)] for such a global [F] *)
  construct : value -> list value -> result value;
  (** an array literal *)
  array_literal : list value -> value;
  (** ToString of a number, and of an object *)
  Number_toString : number -> string;
  Object_toString : positive -> string;
  (** the percent-encoding of application/x-www-form-urlencoded *)
  urlencode : string -> string;
  (** the own properties of a filter in the order [for ... in] visits them:
      the order they were written in, which the map does not keep *)
  for_in : gmap string value -> list (string * value);
  for_in_own : forall o, for_in o ≡ₚ map_to_list o
}.

(** [./server-proxy]: each request answers with a value or fails, and may
    change the state of the server. *)
Class ServerProxy := {
  Server : Type;
  users_getSelf : Server -> result value * Server;
  users_getUsers : Server -> result (list value) * Server;
  jobs_getJob : value -> Server -> result value * Server;
  tasks_getTasks : string -> Server -> result (list value) * Server
}.

(** The requests made to the server proxy, in the order they are made. *)
Inductive proxy_call :=
  | Call_getSelf
  | Call_getUsers
  | Call_getJob (jobID : value)
  | Call_getTasks (query : string).

Section Implementation.

Context `{host : Host} `{proxy : ServerProxy}.

(** ** State and effects *)

(** [hidden] is the object of [./hidden] the wrapper writes to. *)
Record world := World {
  hidden : gmap string value;
  server : Server;
  calls : list proxy_call
}.

Definition M (A : Type) : Type := world -> result A * world.

Definition ret {A} (a : A) : M A := fun w => (inr a, w).

Definition throw {A} (e : exn) : M A := fun w => (inl e, w).

Definition bind {A B} (m : M A) (k : A -> M B) : M B :=
  fun w =>
    match m w with
    | (inr a, w') => k a w'
    | (inl e, w') => (inl e, w')
    end.

Definition lift {A} (r : result A) : M A := fun w => (r, w).

(** [try { body } finally { cleanup }] *)
Definition try_finally {A} (body : M A) (cleanup : M unit) : M A :=
  fun w =>
    let (r, w1) := body w in
    match cleanup w1 with
    | (inr _, w2) => (r, w2)
    | (inl e, w2) => (inl e, w2)
    end.

Notation "x <- m ;; k" := (bind m (fun x => k))
  (at level 100, m at next level, right associativity).
Notation "m ;;; k" := (bind m (fun _ => k))
  (at level 100, right associativity).

Definition set_hidden (k : string) (v : value) : M unit :=
  fun w => (inr tt,
            {| hidden := <[k := v]> (hidden w); server := server w; calls := calls w |}).

Definition delete_hidden (k : string) : M unit :=
  fun w => (inr tt,
            {| hidden := delete k (hidden w); server := server w; calls := calls w |}).

(** A request to the server proxy: it is recorded, then answered. *)
Definition request {A} (c : proxy_call) (f : Server -> result A * Server) : M A :=
  fun w =>
    let (r, s) := f (server w) in
    (r, {| hidden := hidden w; server := s; calls := calls w ++ [c] |}).

(** ** Reading values *)

(** [v instanceof window.cvat.classes.C]: no primitive is an instance. *)
Definition instanceof (v : value) (c : cvat_class) : bool :=
  match v with
  | VObject r => has_class r c
  | _ => false
  end.

(** [v.k]: a TypeError on [undefined] and [null]. *)
Definition read_prop (v : value) (k : string) : result value :=
  match v with
  | VUndefined | VNull => inl TypeError
  | VObject r => inr (prop r k)
  | _ => inr VUndefined
  end.

Definition get_prop (v : value) (k : string) : M value :=
  lift (read_prop v k).

Definition ToString (v : value) : string :=
  match v with
  | VUndefined => "undefined"
  | VNull => "null"
  | VBool true => "true"
  | VBool false => "false"
  | VNumber n => Number_toString n
  | VString s => s
  | VObject r => Object_toString r
  end.

(** A name the module does not bind: a ReferenceError unless it is a global. *)
Definition global_get (name : string) : M value :=
  match global name with
  | Some v => ret v
  | None => throw (ReferenceError name)
  end.

(** ** checkFilter (lines 40-54) *)

(** [prop in fields], for a table: written in it, or inherited. *)
Definition table_in (prop : string) (fields : gmap string (value -> bool)) : bool :=
  has_property prop fields || bool_decide (is_Some (Object_prototype !! prop)).

(** An inherited property called as [fields[prop](v)], with the table as
    [this]: the truth value of what it returns, or what it raises. *)
Definition call_member (m : member) (fields : gmap string (value -> bool))
    (v : value) : result bool :=
  match m with
  | Object_constructor => inr true          (* Object(v): an object *)
  | Object_hasOwnProperty | Object_propertyIsEnumerable =>
      inr (has_property (ToString v) fields)
  | Object_isPrototypeOf => inr false       (* the table is no prototype *)
  | Object_toLocaleString =>                (* this.toString() *)
      match fields !! "toString" with
      | Some checker => inr (checker VUndefined)
      | None => inr true
      end
  | Object_toString_ => inr true            (* [object Object] *)
  | Object_valueOf => inr true              (* the table itself *)
  | Object_proto => inl TypeError           (* an object, not a function *)
  | Object_defineGetter | Object_defineSetter =>
      inl TypeError                         (* the second argument is no function *)
  | Object_lookupGetter | Object_lookupSetter =>
      inr (negb (has_property (ToString v) fields)
           && String.eqb (ToString v) "__proto__")
  end.

(** [fields[prop](v)], with the truth value of what a checker returns. *)
Definition table_call (fields : gmap string (value -> bool)) (prop : string)
    (v : value) : result bool :=
  match fields !! prop with
  | Some checker => inr (checker v)
  | None =>
      match Object_prototype !! prop with
      | Some m => call_member m fields v
      | None => inl TypeError
      end
  end.

(** The [for ... in] loop, over the own properties still to be visited, each
    with its value [filter[prop]]. *)
Fixpoint checkFilter_loop (props : list (string * value))
    (fields : gmap string (value -> bool)) : result unit :=
  match props with
  | [] => inr tt
  | (prop, v) :: rest =>
      if negb (table_in prop fields) then inl (unsupported prop)
      else
        match table_call fields prop v with
        | inl e => inl e
        | inr satisfied =>
            if negb satisfied then inl (unsatisfied prop)
            else checkFilter_loop rest fields
        end
  end.

Definition checkFilter (filter : gmap string value)
    (fields : gmap string (value -> bool)) : result unit :=
  checkFilter_loop (for_in filter) fields.

(** ** setupEnv (lines 57-75) *)

Definition wrapped : Type := value -> list value -> M value.

Definition setupEnv (wrappedFunction : wrapped) : wrapped :=
  fun this args =>
    try_finally
      ((if instanceof this Task then
          id <- get_prop this "id" ;;
          set_hidden "taskID" id
        else if instanceof this Job then
          id <- get_prop this "id" ;;
          set_hidden "jobID" id ;;;
          task <- get_prop this "task" ;;
          task_id <- get_prop task "id" ;;
          set_hidden "taskID" task_id
        else
          throw (ScriptingError "Bad context for the function")) ;;;
       result <- wrappedFunction this args ;;
       ret result)
      (delete_hidden "taskID" ;;;
       delete_hidden "jobID").

(** ** cvat.users.get (lines 95-110) *)

Definition users_fields : gmap string (value -> bool) :=
  {[ "self" := isBoolean ]}.

Definition users_get (filter : gmap string value) : M (list value) :=
  lift (checkFilter filter users_fields) ;;;
  users <- (if has_property "self" filter && truthy (get_field filter "self") then
              users <- request Call_getSelf users_getSelf ;;
              ret [users]
            else
              request Call_getUsers users_getUsers) ;;
  ret (map (new_ User) users).

(** ** cvat.tasks.get (lines 142-176) *)

Definition tasks_fields : gmap string (value -> bool) :=
  {[ "name" := isString;
     "id" := isInteger;
     "owner" := isString;
     "assignee" := isString;
     "search" := isString;
     "status" := isEnum enums_TaskStatus;
     "mode" := isEnum enums_TaskMode ]}.

(** Lines 143-163: the checker table, then the two rules across fields. *)
Definition tasks_get_validate (filter : gmap string value) : result unit :=
  match checkFilter filter tasks_fields with
  | inl e => inl e
  | inr _ =>
      if has_property "search" filter && (1 <? length (Object_keys filter))%nat then
        inl (ArgumentError
               ("Do not use the filter field " ++ quoted "search" ++ " with others"))
      else if has_property "id" filter && (1 <? length (Object_keys filter))%nat then
        inl (ArgumentError
               ("Do not use the filter field " ++ quoted "id" ++ " with others"))
      else inr tt
  end.

(** [URLSearchParams]: the list of its name-value pairs. *)
Fixpoint URLSearchParams_set (name value : string)
    (params : list (string * string)) : list (string * string) :=
  match params with
  | [] => [(name, value)]
  | (n, v) :: rest =>
      if String.eqb n name then
        (name, value) :: List.filter (fun p => negb (String.eqb (fst p) name)) rest
      else (n, v) :: URLSearchParams_set name value rest
  end.

Fixpoint join (sep : string) (parts : list string) : string :=
  match parts with
  | [] => EmptyString
  | [p] => p
  | p :: rest => p ++ sep ++ join sep rest
  end.

Definition URLSearchParams_toString (params : list (string * string)) : string :=
  join "&" (map (fun p => urlencode (fst p) ++ "=" ++ urlencode (snd p)) params).

Definition query_fields : list string :=
  ["name"; "owner"; "assignee"; "search"; "status"; "mode"; "id"].

(** Lines 165-170 *)
Definition tasks_searchParams (filter : gmap string value) : list (string * string) :=
  fold_left
    (fun searchParams field =>
       if has_property field filter then
         URLSearchParams_set field (ToString (get_field filter field)) searchParams
       else searchParams)
    query_fields [].

Definition tasks_get (filter : gmap string value) : M (list value) :=
  lift (tasks_get_validate filter) ;;;
  let searchParams := tasks_searchParams filter in
  tasks <- request (Call_getTasks (URLSearchParams_toString searchParams))
             (tasks_getTasks (URLSearchParams_toString searchParams)) ;;
  ret (map (new_ Task) tasks).

(** ** cvat.jobs.get (lines 112-140) *)

Definition jobs_fields : gmap string (value -> bool) :=
  {[ "taskID" := isInteger;
     "jobID" := isInteger ]}.

(** Lines 113-128: the checker table, then the two rules on the keys. *)
Definition jobs_get_validate (filter : gmap string value) : result unit :=
  match checkFilter filter jobs_fields with
  | inl e => inl e
  | inr _ =>
      if has_property "taskID" filter && has_property "jobID" filter then
        inl (ArgumentError
               ("Only one of fields " ++ quoted "taskID" ++ " and " ++ quoted "jobID"
                ++ " allowed simultaneously"))
      else if (length (Object_keys filter) =? 0)%nat then
        inl (ArgumentError "Job filter must not be empty")
      else inr tt
  end.

(** [jobs.filter(job => job.id === jobID)] *)
Fixpoint filter_by_id (jobID : value) (jobs : list value) : M (list value) :=
  match jobs with
  | [] => ret []
  | job :: rest =>
      id <- get_prop job "id" ;;
      kept <- filter_by_id jobID rest ;;
      ret (if strict_equals id jobID then job :: kept else kept)
  end.

Definition jobs_get (filter : gmap string value) : M (list value) :=
  lift (jobs_get_validate filter) ;;;
  task <- (if has_property "taskID" filter then
             tasks_get {[ "id" := get_field filter "taskID" ]}
           else
             job <- request (Call_getJob (get_field filter "jobID"))
                      (jobs_getJob (get_field filter "jobID")) ;;
             task_id <- get_prop job "task_id" ;;
             tasks_get {[ "id" := task_id ]}) ;;
  let task := new_ Task (hd VUndefined task) in
  if truthy (get_field filter "jobID") then
    filter_by_id (get_field filter "jobID") (Task_jobs task)
  else ret (Task_jobs task).

(** ** The handlers of the job API and of the task API (lines 178-388)

    The two APIs are given the same seventeen arrow functions, each wrapped by
    [setupEnv].  An arrow function has no [this] of its own: [this] in its
    body is the one of [implementAPI]. *)

Inductive api := jobAPI | taskAPI.

Inductive method :=
  | annotations_upload | annotations_save | annotations_clear
  | annotations_dump | annotations_statistics | annotations_put
  | annotations_get | annotations_search | annotations_select
  | frames_get
  | logs_put | logs_save
  | actions_undo | actions_redo | actions_clear
  | events_subscribe | events_unsubscribe.

Definition arrow (m : method) (args : list value) : M value :=
  match m with
  | annotations_dump =>
      host_ <- get_prop window_cvat_config "host" ;;
      api_ <- get_prop window_cvat_config "api" ;;
      taskID <- get_prop implementAPI_this "taskID" ;;
      ret (VString (ToString host_ ++ "/api/" ++ ToString api_ ++ "/tasks/"
                    ++ ToString taskID ++ "/annotations/dump"))
  | annotations_statistics =>
      Statistics <- global_get "Statistics" ;;
      lift (construct Statistics [])
  | annotations_get =>
      ObjectState <- global_get "ObjectState" ;;
      state <- lift (construct ObjectState []) ;;
      ret (array_literal [state])
  | annotations_search => ret (VInt 0)
  | annotations_select => ret VNull
  | frames_get =>
      FrameData <- global_get "FrameData" ;;
      taskID <- get_prop implementAPI_this "taskID" ;;
      lift (construct FrameData [taskID; hd VUndefined args])
  | annotations_upload | annotations_save | annotations_clear
  | annotations_put
  | logs_put | logs_save
  | actions_undo | actions_redo | actions_clear
  | events_subscribe | events_unsubscribe => ret VUndefined
  end.

Definition implementation (a : api) (m : method) : wrapped :=
  setupEnv (fun _ args => arrow m args).

End Implementation.

Notation "x <- m ;; k" := (bind m (fun x => k))
  (at level 100, m at next level, right associativity).
Notation "m ;;; k" := (bind m (fun _ => k))
  (at level 100, right associativity).

(** * The vocabulary of the properties *)

(** [undefined] and [null], on which no property can be read. *)
Definition nullish (v : value) : bool :=
  match v with
  | VUndefined | VNull => true
  | _ => false
  end.

Section Vocabulary.

Context `{host : Host} `{proxy : ServerProxy}.

(** A property the loop of checkFilter goes past: the table has it, written
    or inherited, and calling it on the value gives a truthy result. *)
Definition accepted (fields : gmap string (value -> bool))
    (prop : string) (v : value) : Prop :=
  table_in prop fields = true ∧ table_call fields prop v = inr true.

(** A filter none of whose keys is the name of a property of
    [Object.prototype]. *)
Definition plain (filter : gmap string value) : Prop :=
  ∀ prop, is_Some (filter !! prop) → Object_prototype !! prop = None.

(** An operation that has asked nothing of the server whenever it ends with
    an ArgumentError. *)
Definition no_request_before_ArgumentError {A}
    (operation : gmap string value -> M A) : Prop :=
  ∀ filter w message,
    fst (operation filter w) = inl (ArgumentError message) →
    calls (snd (operation filter w)) = calls w.

(** Two worlds that differ at most in the two slots of the context. *)
Definition same_but_context (w w1 : world) : Prop :=
  server w1 = server w ∧ calls w1 = calls w
  ∧ ∀ k, k ≠ "taskID" → k ≠ "jobID" → hidden w1 !! k = hidden w !! k.

(** A computation that never writes to hidden and adds at most [n] requests
    to those already made. *)
Definition appends {A} (n : nat) (m : M A) : Prop :=
  ∀ w, hidden (snd (m w)) = hidden w
       ∧ ∃ made, calls (snd (m w)) = (calls w ++ made)%list ∧ (length made ≤ n)%nat.

(** [job.id], for a job on which it can be read. *)
Definition id_of (job : value) : value :=
  match read_prop job "id" with
  | inr id => id
  | inl _ => VUndefined
  end.

Definition with_hidden (h : gmap string value) (w : world) : world :=
  {| hidden := h; server := server w; calls := calls w |}.

(** The world once the [finally] block has run. *)
Definition cleared (w : world) : world :=
  with_hidden (delete "jobID" (delete "taskID" (hidden w))) w.

(** The world after a request that left the server in state [s]. *)
Definition requested (c : proxy_call) (s : Server) (w : world) : world :=
  {| hidden := hidden w; server := s; calls := calls w ++ [c] |}.

(** The outcome of one request: the answer [r] goes through [f], the failure
    goes on as it is, and the request is recorded. *)
Definition answered {A B} (c : proxy_call) (r : result A * Server) (f : A -> B)
    (w : world) : result B * world :=
  (match fst r with
   | inr a => inr (f a)
   | inl e => inl e
   end,
   requested c (snd r) w).

(** The pairs the loop is expected to leave: one for each of the fields, in
    their order, that the filter has. *)
Definition params_of (filter : gmap string value) (fields : list string) :
    list (string * string) :=
  omap (fun field => (fun v => (field, ToString v)) <$> filter !! field) fields.

(** A [this] the wrapper accepts: a Task, or a Job whose task has an id to
    read. *)
Definition valid_context (this : value) : Prop :=
  match this with
  | VObject r =>
      has_class r Task = true
      ∨ (has_class r Job = true ∧ ∃ task_id, read_prop (prop r "task") "id" = inr task_id)
  | _ => False
  end.

(** What a handler with nothing but a TODO gives back. *)
Definition placeholder (m : method) : option value :=
  match m with
  | annotations_search => Some (VInt 0)
  | annotations_select => Some VNull
  | annotations_dump | annotations_statistics | annotations_get | frames_get => None
  | _ => Some VUndefined
  end.

End Vocabulary.

(** * A page and a server to run the module on *)

Module Demo.

(** Objects: 1 is a Task with id 7, 2 a Job with id 3 of that task, 5 the
    record the server keeps for job 3, 6 the record of task 7, 10 and 11 the
    jobs of the task, with ids 0 and 1, 20 and 21 two users, 30 the
    configuration. *)
Definition demo_host : Host := {|
  has_class r c :=
    match r, c with
    | 1%positive, Task => true
    | 2%positive, Job => true
    | 10%positive, Job | 11%positive, Job => true
    | _, _ => false
    end;
  prop r k :=
    match r with
    | 1%positive => if String.eqb k "id" then VInt 7 else VUndefined
    | 2%positive =>
        if String.eqb k "id" then VInt 3
        else if String.eqb k "task" then VObject 1 else VUndefined
    | 5%positive => if String.eqb k "task_id" then VInt 7 else VUndefined
    | 10%positive => if String.eqb k "id" then VInt 0 else VUndefined
    | 11%positive => if String.eqb k "id" then VInt 1 else VUndefined
    | 30%positive =>
        if String.eqb k "host" then VString "http://localhost:7000"
        else if String.eqb k "api" then VString "v1" else VUndefined
    | _ => VUndefined
    end;
  new_ c data :=
    match c, data with
    | Task, VObject 6%positive => VObject 1
    | _, _ => data
    end;
  Task_jobs task :=
    match task with
    | VObject 1%positive => [VObject 10; VObject 11]
    | _ => []
    end;
  enums_TaskStatus :=
    {[ "ANNOTATION" := VString "annotation";
       "VALIDATION" := VString "validation";
       "COMPLETED" := VString "completed" ]};
  enums_TaskMode :=
    {[ "ANNOTATION" := VString "annotation";
       "INTERPOLATION" := VString "interpolation" ]};
  window_cvat_config := VObject 30;
  implementAPI_this := VUndefined;
  global _ := None;
  construct _ _ := inl TypeError;
  array_literal _ := VObject 40;
  Number_toString n :=
    match n with
    | Finite q => pretty (Qnum q)
    | Infinity false => "Infinity"
    | Infinity true => "-Infinity"
    | NaN => "NaN"
    end;
  Object_toString _ := "[object Object]";
  urlencode text := text;
  for_in := map_to_list;
  for_in_own _ := Permutation_refl _
|}.

(** The server counts the requests it has answered. *)
Definition demo_proxy : ServerProxy := {|
  Server := nat;
  users_getSelf s := (inr (VObject 20), S s);
  users_getUsers s := (inr [VObject 20; VObject 21], S s);
  jobs_getJob _ s := (inr (VObject 5), S s);
  tasks_getTasks _ s := (inr [VObject 6], S s)
|}.

Definition demo_world : @world demo_proxy :=
  @World demo_proxy ∅ 0%nat [].

(** The same page, with the window, object 50, as the [this] of
    [implementAPI]: it has no taskID. *)
Definition window_host : Host := {|
  has_class := @has_class demo_host;
  prop := @prop demo_host;
  new_ := @new_ demo_host;
  Task_jobs := @Task_jobs demo_host;
  enums_TaskStatus := @enums_TaskStatus demo_host;
  enums_TaskMode := @enums_TaskMode demo_host;
  window_cvat_config := @window_cvat_config demo_host;
  implementAPI_this := VObject 50;
  global := @global demo_host;
  construct := @construct demo_host;
  array_literal := @array_literal demo_host;
  Number_toString := @Number_toString demo_host;
  Object_toString := @Object_toString demo_host;
  urlencode := @urlencode demo_host;
  for_in := @for_in demo_host;
  for_in_own := @for_in_own demo_host
|}.

(** A server that answers every request for a job with object 6, a record
    without task_id. *)
Definition odd_proxy : ServerProxy := {|
  Server := nat;
  users_getSelf s := (inr (VObject 20), S s);
  users_getUsers s := (inr [VObject 20; VObject 21], S s);
  jobs_getJob _ s := (inr (VObject 6), S s);
  tasks_getTasks _ s := (inr [VObject 6], S s)
|}.

Definition odd_world : @world odd_proxy :=
  @World odd_proxy ∅ 0%nat [].

(** A server that is down. *)
Definition failing_proxy : ServerProxy := {|
  Server := nat;
  users_getSelf s := (inl (ProxyError 503), S s);
  users_getUsers s := (inl (ProxyError 503), S s);
  jobs_getJob _ s := (inl (ProxyError 503), S s);
  tasks_getTasks _ s := (inl (ProxyError 503), S s)
|}.

Definition failing_world : @world failing_proxy :=
  @World failing_proxy ∅ 0%nat [].

End Demo.

(** * Properties *)

(** ** Keys of an object *)

Section Keys.

Context {V : Type}.
Implicit Types o : gmap string V.

Lemma length_Object_keys o : length (Object_keys o) = size o.
Proof. unfold Object_keys. rewrite length_fmap. apply length_map_to_list. Qed.

Lemma has_property_dom k o : has_property k o = true ↔ k ∈ dom o.
Proof. unfold has_property. rewrite bool_decide_eq_true. symmetry. apply elem_of_dom. Qed.

Lemma has_property_not_dom k o : has_property k o = false ↔ k ∉ dom o.
Proof. rewrite <- has_property_dom. by destruct (has_property k o). Qed.

Lemma has_property_lookup k o v : o !! k = Some v → has_property k o = true.
Proof. intros H. apply has_property_dom, elem_of_dom. eauto. Qed.

(** Two different keys: more than one key. *)
Lemma two_keys o k1 k2 :
  k1 ∈ dom o → k2 ∈ dom o → k1 ≠ k2 → (1 <? length (Object_keys o))%nat = true.
Proof.
  intros H1 H2 Hne. apply Nat.ltb_lt. rewrite length_Object_keys.
  apply elem_of_dom in H1 as [v1 H1]. apply elem_of_dom in H2 as [v2 H2].
  assert (size (delete k1 o) ≠ 0%nat) as Hrest.
  { apply map_size_non_empty_iff. intros Hempty.
    assert (delete k1 o !! k2 = Some v2) as Hk2 by by rewrite lookup_delete_ne.
    rewrite Hempty in Hk2. by rewrite lookup_empty in Hk2. }
  rewrite map_size_delete, H1 in Hrest. simpl in Hrest. lia.
Qed.

Lemma one_key o k : dom o = {[ k ]} → (1 <? length (Object_keys o))%nat = false.
Proof.
  intros Hdom. apply dom_singleton_inv_L in Hdom as [v ->].
  rewrite length_Object_keys, map_size_singleton. done.
Qed.

End Keys.

(** ** checkFilter *)

Section CheckFilter.

Context `{host : Host}.

Variable fields : gmap string (value -> bool).

Lemma for_in_elem (filter : gmap string value) prop v :
  (prop, v) ∈ for_in filter ↔ filter !! prop = Some v.
Proof. rewrite (for_in_own filter). apply elem_of_map_to_list. Qed.

Lemma for_in_singleton prop v : for_in {[ prop := v ]} = [(prop, v)].
Proof.
  apply Permutation_singleton_r. rewrite for_in_own.
  by rewrite map_to_list_singleton.
Qed.

Lemma for_in_empty : for_in ∅ = [].
Proof. apply Permutation_nil_r. rewrite for_in_own. by rewrite map_to_list_empty. Qed.

(** What is raised on a call of a table is a TypeError. *)
Lemma table_call_error prop v e : table_call fields prop v = inl e → e = TypeError.
Proof.
  unfold table_call. destruct (fields !! prop); [done|].
  destruct (Object_prototype !! prop) as [m|]; [|congruence].
  destruct m; simpl; try congruence. by destruct (fields !! "toString").
Qed.

(** A property with a written checker is accepted when the checker holds. *)
Lemma accepted_written prop v checker :
  fields !! prop = Some checker → accepted fields prop v ↔ checker v = true.
Proof.
  intros Hc. unfold accepted, table_in, table_call.
  rewrite (has_property_lookup _ _ _ Hc), Hc. simpl. split.
  - by intros [_ [= ->]].
  - by intros ->.
Qed.

(** A property that is no name of [Object.prototype] is accepted through a
    written checker only. *)
Lemma accepted_plain prop v :
  Object_prototype !! prop = None →
  accepted fields prop v ↔ ∃ checker, fields !! prop = Some checker ∧ checker v = true.
Proof.
  intros Hplain. destruct (fields !! prop) as [checker|] eqn:Hc.
  - rewrite (accepted_written _ _ _ Hc). split; [eauto|]. by intros (c & [= <-] & ?).
  - split; [|by intros (c & ? & _)].
    unfold accepted, table_in, has_property. rewrite Hc, Hplain.
    rewrite !bool_decide_eq_false_2 by (by intros [? ?]). by intros [? _].
Qed.

Lemma checkFilter_loop_passes props :
  checkFilter_loop props fields = inr tt
  ↔ ∀ prop v, (prop, v) ∈ props → accepted fields prop v.
Proof.
  induction props as [|[prop v] rest IH]; simpl.
  - split; [|done]. intros _ ?? Hin. by apply elem_of_nil in Hin.
  - unfold accepted in *.
    destruct (table_in prop fields) eqn:Hin; simpl.
    + destruct (table_call fields prop v) as [e|[]] eqn:Hcall; simpl.
      * split; [done|]. intros Hall.
        destruct (Hall prop v) as [_ ?]; [by apply elem_of_cons; left|congruence].
      * rewrite IH. split.
        -- intros Hrest p x Hp. apply elem_of_cons in Hp as [[= -> ->]|Hp]; auto.
        -- intros Hall p x Hp. apply Hall. by apply elem_of_cons; right.
      * split; [done|]. intros Hall.
        destruct (Hall prop v) as [_ ?]; [by apply elem_of_cons; left|congruence].
    + split; [done|]. intros Hall.
      destruct (Hall prop v) as [? _]; [by apply elem_of_cons; left|congruence].
Qed.

(** The error of the loop is the one it raises on some property. *)
Lemma checkFilter_loop_error props e :
  checkFilter_loop props fields = inl e →
  ∃ prop v, (prop, v) ∈ props
    ∧ ((table_in prop fields = false ∧ e = unsupported prop)
       ∨ (table_in prop fields = true ∧ table_call fields prop v = inr false
          ∧ e = unsatisfied prop)
       ∨ (table_in prop fields = true ∧ table_call fields prop v = inl TypeError
          ∧ e = TypeError)).
Proof.
  induction props as [|[prop v] rest IH]; simpl; [done|].
  destruct (table_in prop fields) eqn:Hin; simpl.
  - destruct (table_call fields prop v) as [e'|[]] eqn:Hcall; simpl.
    + intros [= <-]. pose proof (table_call_error _ _ _ Hcall) as ->.
      exists prop, v. split; [by apply elem_of_cons; left|].
      right; right. done.
    + intros H. destruct (IH H) as (p & x & Hp & Hwhy).
      exists p, x. split; [by apply elem_of_cons; right|done].
    + intros [= <-]. exists prop, v. split; [by apply elem_of_cons; left|].
      right; left. done.
  - intros [= <-]. exists prop, v. split; [by apply elem_of_cons; left|].
    by left.
Qed.

Lemma checkFilter_passes filter :
  checkFilter filter fields = inr tt
  ↔ ∀ prop v, filter !! prop = Some v → accepted fields prop v.
Proof.
  unfold checkFilter. rewrite checkFilter_loop_passes.
  split; intros H prop v Hin; apply H; by apply for_in_elem.
Qed.

Lemma checkFilter_error filter e :
  checkFilter filter fields = inl e →
  ∃ prop v, filter !! prop = Some v
    ∧ ((table_in prop fields = false ∧ e = unsupported prop)
       ∨ (table_in prop fields = true ∧ table_call fields prop v = inr false
          ∧ e = unsatisfied prop)
       ∨ (table_in prop fields = true ∧ table_call fields prop v = inl TypeError
          ∧ e = TypeError)).
Proof.
  intros H. destruct (checkFilter_loop_error _ _ H) as (prop & v & Hin & Hwhy).
  exists prop, v. split; [by apply for_in_elem|done].
Qed.

(** checkFilter ends normally, with an ArgumentError, or with the TypeError
    of an inherited property that cannot be called as a checker. *)
Lemma checkFilter_outcome filter :
  checkFilter filter fields = inr tt
  ∨ (∃ message, checkFilter filter fields = inl (ArgumentError message))
  ∨ checkFilter filter fields = inl TypeError.
Proof.
  destruct (checkFilter filter fields) as [e|[]] eqn:H; [|by left]. right.
  destruct (checkFilter_error _ _ H)
    as (prop & v & _ & [[_ ->]|[(_ & _ & ->)|(_ & _ & ->)]]);
    [left|left|right]; unfold unsupported, unsatisfied; eauto.
Qed.

(** On a plain filter the TypeError is out of reach. *)
Lemma checkFilter_plain_outcome filter :
  plain filter →
  checkFilter filter fields = inr tt
  ∨ ∃ message, checkFilter filter fields = inl (ArgumentError message).
Proof.
  intros Hplain. destruct (checkFilter filter fields) as [e|[]] eqn:H; [|by left]. right.
  destruct (checkFilter_error _ _ H)
    as (prop & v & Hin & [[_ ->]|[(_ & _ & ->)|(Htable & Hcall & ->)]]);
    [unfold unsupported; eauto|unfold unsatisfied; eauto|].
  exfalso. unfold table_call in Hcall. unfold table_in, has_property in Htable.
  destruct (fields !! prop); [done|].
  rewrite (Hplain prop (mk_is_Some _ _ Hin)) in Htable.
  by rewrite !bool_decide_eq_false_2 in Htable by (by intros [? ?]).
Qed.

Lemma checkFilter_one prop v :
  checkFilter {[ prop := v ]} fields = checkFilter_loop [(prop, v)] fields.
Proof. unfold checkFilter. by rewrite for_in_singleton. Qed.

(** When every property is accepted but those on which the call of the table
    raises a TypeError, and there is one of these, checkFilter raises it. *)
Lemma checkFilter_TypeError filter :
  (∀ prop v, filter !! prop = Some v →
     accepted fields prop v
     ∨ (table_in prop fields = true ∧ table_call fields prop v = inl TypeError)) →
  (∃ prop v, filter !! prop = Some v ∧ table_call fields prop v = inl TypeError) →
  checkFilter filter fields = inl TypeError.
Proof.
  intros Hall (prop & v & Hin & Hcall).
  destruct (checkFilter filter fields) as [e|[]] eqn:H.
  - destruct (checkFilter_error _ _ H)
      as (p & x & Hp & [[Hno ->]|[(_ & Hfalse & ->)|(_ & _ & ->)]]); [| |done].
    + destruct (Hall p x Hp) as [[? _]|[? _]]; congruence.
    + destruct (Hall p x Hp) as [[_ ?]|[_ ?]]; congruence.
  - destruct (proj1 (checkFilter_passes filter) H prop v Hin) as [_ ?]. congruence.
Qed.

(** A filter whose keys are apart from those of [Object.prototype] is plain. *)
Lemma plain_disjoint (filter : gmap string value) :
  dom filter ## dom Object_prototype → plain filter.
Proof.
  intros Hdisjoint prop Hin. apply not_elem_of_dom.
  intros Hproto. apply (Hdisjoint prop); [by apply elem_of_dom|done].
Qed.

(** C1: checkFilter does not raise on every property the table has no checker
    for: line 43 asks [prop in fields], which also finds what the table
    inherits.  A filter whose one property is constructor, toString or
    valueOf passes, whatever its value; with __proto__, __defineGetter__ or
    __defineSetter__ the call of line 47 raises a TypeError, not an
    ArgumentError. *)
Theorem checkFilter_inherited_names prop (v : value) :
  fields !! prop = None →
  (prop ∈ ["constructor"; "toString"; "valueOf"] →
   checkFilter {[ prop := v ]} fields = inr tt)
  ∧ (prop ∈ ["__proto__"; "__defineGetter__"; "__defineSetter__"] →
     checkFilter {[ prop := v ]} fields = inl TypeError).
Proof.
  intros Hnone. rewrite checkFilter_one. simpl.
  unfold table_in, table_call, has_property. rewrite Hnone.
  split; intros Hprop; repeat (apply elem_of_cons in Hprop as [->|Hprop]);
    try (by apply elem_of_nil in Hprop); done.
Qed.

End CheckFilter.

(** ** setupEnv *)

Section SetupEnv.

Context `{host : Host} `{proxy : ServerProxy}.

Lemma setupEnv_unfold (f : wrapped) this args w :
  setupEnv f this args w =
  let (r, w1) :=
    ((if instanceof this Task then
        id <- get_prop this "id" ;; set_hidden "taskID" id
      else if instanceof this Job then
        id <- get_prop this "id" ;;
        set_hidden "jobID" id ;;;
        task <- get_prop this "task" ;;
        task_id <- get_prop task "id" ;;
        set_hidden "taskID" task_id
      else throw (ScriptingError "Bad context for the function")) ;;;
     f this args) w in
  (r, cleared w1).
Proof.
  unfold setupEnv, try_finally.
  match goal with |- context [bind ?m _ w] => set (prologue := m) end.
  unfold bind. destruct (prologue w) as [[e|[]] w0]; [done|].
  unfold ret. by destruct (f this args w0) as [[e|v] w1].
Qed.

(** C4: when a call of the wrapper completes, whatever the wrapped function
    did and whether or not the context was accepted, hidden.taskID and
    hidden.jobID are both deleted. *)
Theorem setupEnv_clears_context (f : wrapped) this args w :
  hidden (snd (setupEnv f this args w)) !! "taskID" = None
  ∧ hidden (snd (setupEnv f this args w)) !! "jobID" = None.
Proof.
  rewrite setupEnv_unfold.
  match goal with |- context [let (_, _) := ?x in _] => destruct x as [r w1] end.
  simpl. split.
  - rewrite lookup_delete_ne by done. apply lookup_delete_eq.
  - apply lookup_delete_eq.
Qed.

Lemma setupEnv_other (f : wrapped) this args w :
  instanceof this Task = false → instanceof this Job = false →
  setupEnv f this args w =
  (inl (ScriptingError "Bad context for the function"), cleared w).
Proof. intros HT HJ. rewrite setupEnv_unfold, HT, HJ. done. Qed.

Lemma setupEnv_Task (f : wrapped) r args w :
  has_class r Task = true →
  setupEnv f (VObject r) args w =
  let (res, w') :=
    f (VObject r) args (with_hidden (<["taskID" := prop r "id"]> (hidden w)) w) in
  (res, cleared w').
Proof. intros HT. rewrite setupEnv_unfold. simpl. rewrite HT. done. Qed.

Lemma setupEnv_Job (f : wrapped) r task_id args w :
  has_class r Task = false → has_class r Job = true →
  read_prop (prop r "task") "id" = inr task_id →
  setupEnv f (VObject r) args w =
  let (res, w') :=
    f (VObject r) args
      (with_hidden (<["taskID" := task_id]> (<["jobID" := prop r "id"]> (hidden w))) w) in
  (res, cleared w').
Proof.
  intros HT HJ Hid. rewrite setupEnv_unfold. simpl. rewrite HT, HJ.
  unfold bind at 1 2 3 4. unfold get_prop at 1 2. simpl.
  unfold get_prop, lift. rewrite Hid. done.
Qed.

(** C5: with a [this] that is neither a Task nor a Job the wrapper raises a
    ScriptingError and the wrapped function is not run; with a Task it runs
    the wrapped function with hidden.taskID set to this.id; with a Job it
    runs it with hidden.jobID set to this.id and hidden.taskID set to
    this.task.id. *)
Theorem setupEnv_context (f : wrapped) args w :
  (∀ this,
     instanceof this Task = false → instanceof this Job = false →
     setupEnv f this args w =
     (inl (ScriptingError "Bad context for the function"), cleared w))
  ∧ (∀ r,
       has_class r Task = true →
       setupEnv f (VObject r) args w =
       let (res, w') :=
         f (VObject r) args (with_hidden (<["taskID" := prop r "id"]> (hidden w)) w) in
       (res, cleared w'))
  ∧ (∀ r task_id,
       has_class r Task = false → has_class r Job = true →
       read_prop (prop r "task") "id" = inr task_id →
       setupEnv f (VObject r) args w =
       let (res, w') :=
         f (VObject r) args
           (with_hidden (<["taskID" := task_id]> (<["jobID" := prop r "id"]> (hidden w))) w) in
       (res, cleared w')).
Proof.
  split; [|split].
  - intros this. apply setupEnv_other.
  - intros r. apply setupEnv_Task.
  - intros r task_id. apply setupEnv_Job.
Qed.

End SetupEnv.

(** ** cvat.tasks.get *)

Section TasksGet.

Context `{host : Host} `{proxy : ServerProxy}.

Lemma tasks_get_validate_outcome filter :
  tasks_get_validate filter = inr tt
  ∨ (∃ message, tasks_get_validate filter = inl (ArgumentError message))
  ∨ tasks_get_validate filter = inl TypeError.
Proof.
  unfold tasks_get_validate.
  destruct (checkFilter_outcome tasks_fields filter) as [->|[[message ->]| ->]];
    [|eauto..].
  destruct (_ && _); [eauto|]. destruct (_ && _); eauto.
Qed.

Lemma tasks_get_validate_plain filter :
  plain filter →
  tasks_get_validate filter = inr tt
  ∨ ∃ message, tasks_get_validate filter = inl (ArgumentError message).
Proof.
  intros Hplain. unfold tasks_get_validate.
  destruct (checkFilter_plain_outcome tasks_fields filter Hplain) as [->|[message ->]];
    [|eauto].
  destruct (_ && _); [eauto|]. destruct (_ && _); eauto.
Qed.

(** A failed validation is the outcome of the call, in the world of the call. *)
Lemma tasks_get_invalid filter e w :
  tasks_get_validate filter = inl e → tasks_get filter w = (inl e, w).
Proof. intros H. unfold tasks_get, bind, lift. by rewrite H. Qed.

Lemma tasks_get_rejects filter w :
  tasks_get_validate filter ≠ inr tt →
  ∃ e, tasks_get filter w = (inl e, w)
       ∧ ((∃ message, e = ArgumentError message) ∨ e = TypeError)
       ∧ (plain filter → ∃ message, e = ArgumentError message).
Proof.
  intros Hbad.
  destruct (tasks_get_validate filter) as [e|[]] eqn:H; [|done].
  exists e. split; [by apply tasks_get_invalid|]. split.
  - destruct (tasks_get_validate_outcome filter) as [?|[[message ?]|?]];
      [congruence|left; exists message; congruence|right; congruence].
  - intros Hplain.
    destruct (tasks_get_validate_plain filter Hplain) as [?|[message ?]];
      [congruence|exists message; congruence].
Qed.

(** A filter of accepted properties and one more, that the table inherits and
    cannot call. *)
Lemma checkFilter_with_uncallable fields (filter : gmap string value) prop v :
  fields !! prop = None →
  prop ∈ ["__proto__"; "__defineGetter__"; "__defineSetter__"] →
  (∀ p x, filter !! p = Some x → accepted fields p x) →
  checkFilter (<[prop := v]> filter) fields = inl TypeError.
Proof.
  intros Hnone Hprop Hall.
  assert (table_in prop fields = true ∧ table_call fields prop v = inl TypeError)
    as Hthrows.
  { unfold table_in, table_call, has_property. rewrite Hnone.
    repeat (apply elem_of_cons in Hprop as [->|Hprop]);
      try (by apply elem_of_nil in Hprop); done. }
  apply checkFilter_TypeError.
  - intros p x Hp. apply lookup_insert_Some in Hp as [[<- <-]|[_ Hp]]; auto.
  - exists prop, v. split; [apply lookup_insert_eq|apply Hthrows].
Qed.

(** C2: with search, or id, and another key cvat.tasks.get ends with an error
    before any request: an ArgumentError when the filter is plain, but the
    TypeError of checkFilter when the other key is one the table inherits and
    cannot call, as __defineGetter__; with search alone, id alone, or neither
    of them, the two rules across fields raise nothing. *)
Theorem tasks_get_cross_field (filter : gmap string value) :
  (∀ other w,
     "search" ∈ dom filter → other ∈ dom filter → other ≠ "search" →
     ∃ e, tasks_get filter w = (inl e, w)
          ∧ ((∃ message, e = ArgumentError message) ∨ e = TypeError)
          ∧ (plain filter → ∃ message, e = ArgumentError message))
  ∧ (∀ other w,
       "id" ∈ dom filter → other ∈ dom filter → other ≠ "id" →
       ∃ e, tasks_get filter w = (inl e, w)
            ∧ ((∃ message, e = ArgumentError message) ∨ e = TypeError)
            ∧ (plain filter → ∃ message, e = ArgumentError message))
  ∧ ((dom filter = {[ "search" ]} ∨ dom filter = {[ "id" ]}
      ∨ (("search" ∉ dom filter) ∧ ("id" ∉ dom filter))) →
     tasks_get_validate filter = checkFilter filter tasks_fields)
  ∧ (∀ text v w,
       tasks_get {[ "__defineGetter__" := v; "search" := VString text ]} w
       = (inl TypeError, w)).
Proof.
  split; [|split; [|split]].
  - intros other w Hs Ho Hne. apply tasks_get_rejects.
    unfold tasks_get_validate. destruct (checkFilter _ _); [done|].
    rewrite (proj2 (has_property_dom _ _) Hs).
    by rewrite (two_keys filter "search" other).
  - intros other w Hi Ho Hne. apply tasks_get_rejects.
    unfold tasks_get_validate. destruct (checkFilter _ _); [done|].
    destruct (_ && _); [done|].
    rewrite (proj2 (has_property_dom _ _) Hi).
    by rewrite (two_keys filter "id" other).
  - intros Hkeys. unfold tasks_get_validate.
    destruct (checkFilter _ _) as [e|[]]; [done|].
    destruct Hkeys as [Hone|[Hone|[Hs Hi]]].
    + rewrite (one_key _ _ Hone). by rewrite !andb_false_r.
    + rewrite (one_key _ _ Hone). by rewrite !andb_false_r.
    + apply has_property_not_dom in Hs, Hi. by rewrite Hs, Hi.
  - intros text v w. apply tasks_get_invalid. unfold tasks_get_validate.
    rewrite (checkFilter_with_uncallable tasks_fields); [done..| |].
    + set_solver.
    + intros p x Hp. apply lookup_singleton_Some in Hp as [<- <-].
      by apply (accepted_written _ _ _ isString).
Qed.

Lemma get_field_lookup (o : gmap string value) k v :
  o !! k = Some v → get_field o k = v.
Proof. unfold get_field. by intros ->. Qed.

Lemma URLSearchParams_set_fresh name value params :
  name ∉ params.*1 →
  URLSearchParams_set name value params = (params ++ [(name, value)])%list.
Proof.
  induction params as [|[n v] rest IH]; simpl; [done|].
  intros Hfresh. apply not_elem_of_cons in Hfresh as [Hne Hrest].
  destruct (String.eqb_spec n name) as [->|_]; [done|]. by rewrite IH.
Qed.

Lemma fold_set_fields filter fields acc :
  NoDup fields → (∀ name, name ∈ fields → name ∉ acc.*1) →
  fold_left
    (fun searchParams field =>
       if has_property field filter then
         URLSearchParams_set field (ToString (get_field filter field)) searchParams
       else searchParams)
    fields acc
  = (acc ++ params_of filter fields)%list.
Proof.
  revert acc. induction fields as [|field rest IH]; intros acc Hnodup Hfresh; simpl.
  { by rewrite app_nil_r. }
  apply NoDup_cons in Hnodup as [Hnotin Hnodup].
  cbn [fold_left]. unfold params_of. cbn [omap list_omap].
  destruct (filter !! field) as [v|] eqn:E; cbn [fmap option_fmap option_map].
  - rewrite (has_property_lookup _ _ _ E), (get_field_lookup _ _ _ E).
    rewrite URLSearchParams_set_fresh by (apply Hfresh; left).
    rewrite IH; [by rewrite <- app_assoc|done|].
    intros name Hin. rewrite fmap_app. simpl. intros Hname.
    apply elem_of_app in Hname as [Hname|Hname].
    + by apply (Hfresh name); [right|].
    + apply list_elem_of_singleton in Hname as ->. done.
  - assert (has_property field filter = false) as ->.
    { apply has_property_not_dom. by apply not_elem_of_dom. }
    apply IH; [done|]. intros name Hin. apply Hfresh. by right.
Qed.

Lemma tasks_searchParams_spec filter :
  tasks_searchParams filter = params_of filter query_fields.
Proof.
  unfold tasks_searchParams. rewrite fold_set_fields; [done| |].
  - apply (bool_decide_unpack _). by vm_compute.
  - intros name _ Hin. by apply elem_of_nil in Hin.
Qed.

(** The query has exactly those of the seven fields that the filter has, each
    with the value of the filter. *)
Lemma params_of_elem filter name text :
  (name, text) ∈ params_of filter query_fields
  ↔ name ∈ query_fields ∧ ∃ v, filter !! name = Some v ∧ text = ToString v.
Proof.
  unfold params_of. rewrite list_elem_of_omap. split.
  - intros (field & Hin & Hsome). destruct (filter !! field) as [v|] eqn:E; simplify_eq/=.
    eauto.
  - intros (Hin & v & Hv & ->). exists name. by rewrite Hv.
Qed.

(** C6: for a filter that passes validation, cvat.tasks.get asks the server
    proxy for the tasks of the query string made of exactly those of the fields
    name, owner, assignee, search, status, mode and id that the filter has,
    each set to the value the filter gives it, and returns the answer with
    every element made a Task; the empty filter gives the empty query. *)
Theorem tasks_get_query (filter : gmap string value) (w : world) :
  (tasks_get_validate filter = inr tt →
   let query := URLSearchParams_toString (params_of filter query_fields) in
   tasks_get filter w =
   answered (Call_getTasks query) (tasks_getTasks query (server w))
     (map (new_ Task)) w)
  ∧ (∀ name text,
       (name, text) ∈ params_of filter query_fields
       ↔ name ∈ query_fields ∧ ∃ v, filter !! name = Some v ∧ text = ToString v)
  ∧ tasks_get ∅ w =
    answered (Call_getTasks EmptyString) (tasks_getTasks EmptyString (server w))
      (map (new_ Task)) w.
Proof.
  assert (∀ f, tasks_get_validate f = inr tt →
            tasks_get f w =
            answered (Call_getTasks (URLSearchParams_toString (params_of f query_fields)))
              (tasks_getTasks (URLSearchParams_toString (params_of f query_fields))
                 (server w))
              (map (new_ Task)) w) as Hquery.
  { intros f Hvalid. unfold tasks_get, bind, lift. rewrite Hvalid.
    rewrite tasks_searchParams_spec. unfold request, ret, answered, requested.
    by destruct (tasks_getTasks _ (server w)) as [[e|tasks] s]. }
  split; [|split].
  - apply Hquery.
  - apply params_of_elem.
  - rewrite Hquery; [done|].
    unfold tasks_get_validate, checkFilter. by rewrite for_in_empty.
Qed.

End TasksGet.

(** ** cvat.users.get *)

Section UsersGet.

Context `{host : Host} `{proxy : ServerProxy}.

Lemma users_get_invalid filter e w :
  checkFilter filter users_fields = inl e → users_get filter w = (inl e, w).
Proof. intros H. unfold users_get, bind, lift. by rewrite H. Qed.

(** What the table of cvat.users.get lets through: self, if there, is a
    boolean. *)
Lemma users_filter_self filter v :
  checkFilter filter users_fields = inr tt → filter !! "self" = Some v →
  ∃ b, v = VBool b.
Proof.
  intros Hvalid Hself.
  pose proof (proj1 (checkFilter_passes _ _) Hvalid _ _ Hself) as Hacc.
  apply (accepted_written _ _ _ isBoolean) in Hacc; [|done].
  destruct v; try done. eauto.
Qed.

(** C7: for a filter that passes validation, cvat.users.get returns the one
    user of serverProxy.users.getSelf() exactly when the filter has self with
    the value true, and the list of serverProxy.users.getUsers() otherwise,
    self being false or absent; every element is made a User. *)
Theorem users_get_self_or_all (filter : gmap string value) (w : world) :
  checkFilter filter users_fields = inr tt →
  (filter !! "self" = Some (VBool true) →
   users_get filter w =
   answered Call_getSelf (users_getSelf (server w)) (fun user => [new_ User user]) w)
  ∧ (filter !! "self" ≠ Some (VBool true) →
     users_get filter w =
     answered Call_getUsers (users_getUsers (server w)) (map (new_ User)) w).
Proof.
  intros Hvalid. split.
  - intros Hself. unfold users_get, bind, lift. rewrite Hvalid.
    rewrite (has_property_lookup _ _ _ Hself), (get_field_lookup _ _ _ Hself).
    simpl. unfold request, ret, answered, requested.
    destruct (users_getSelf (server w)) as [[e|user] s]; done.
  - intros Hself. unfold users_get, bind, lift. rewrite Hvalid.
    assert (has_property "self" filter && truthy (get_field filter "self") = false)
      as ->.
    { destruct (filter !! "self") as [v|] eqn:E.
      - destruct (users_filter_self _ _ Hvalid E) as [[] ->]; [done|].
        by rewrite (get_field_lookup _ _ _ E), andb_false_r.
      - assert (has_property "self" filter = false) as ->; [|done].
        apply has_property_not_dom. by apply not_elem_of_dom. }
    unfold request, ret, answered, requested.
    destruct (users_getUsers (server w)) as [[e|users] s]; done.
Qed.

End UsersGet.

(** ** cvat.jobs.get *)

Section JobsGet.

Context `{host : Host} `{proxy : ServerProxy}.

Lemma jobs_get_validate_outcome filter :
  jobs_get_validate filter = inr tt
  ∨ (∃ message, jobs_get_validate filter = inl (ArgumentError message))
  ∨ jobs_get_validate filter = inl TypeError.
Proof.
  unfold jobs_get_validate.
  destruct (checkFilter_outcome jobs_fields filter) as [->|[[message ->]| ->]];
    [|eauto..].
  destruct (_ && _); [eauto|]. destruct (_ =? _)%nat; eauto.
Qed.

Lemma jobs_get_validate_plain filter :
  plain filter →
  jobs_get_validate filter = inr tt
  ∨ ∃ message, jobs_get_validate filter = inl (ArgumentError message).
Proof.
  intros Hplain. unfold jobs_get_validate.
  destruct (checkFilter_plain_outcome jobs_fields filter Hplain) as [->|[message ->]];
    [|eauto].
  destruct (_ && _); [eauto|]. destruct (_ =? _)%nat; eauto.
Qed.

Lemma jobs_get_invalid filter e w :
  jobs_get_validate filter = inl e → jobs_get filter w = (inl e, w).
Proof. intros H. unfold jobs_get, bind, lift. by rewrite H. Qed.

Lemma jobs_get_validate_single key v :
  key = "taskID" ∨ key = "jobID" → isInteger v = true →
  jobs_get_validate {[ key := v ]} = inr tt.
Proof.
  intros Hkey Hint. unfold jobs_get_validate.
  assert (checkFilter {[ key := v ]} jobs_fields = inr tt) as ->.
  { apply checkFilter_passes. intros prop x Hin.
    apply lookup_singleton_Some in Hin as [<- <-].
    apply (accepted_written _ _ _ isInteger); [|done]. by destruct Hkey as [->| ->]. }
  assert (length (Object_keys ({[ key := v ]} : gmap string value)) = 1%nat) as ->.
  { by rewrite length_Object_keys, map_size_singleton. }
  destruct Hkey as [->| ->]; done.
Qed.

(** C3: with both taskID and jobID cvat.jobs.get ends with an error before
    any request: an ArgumentError when the filter is plain, but the TypeError
    of checkFilter when a third key is one the table inherits and cannot
    call, as __defineGetter__; with no key at all it raises an ArgumentError;
    a filter that has exactly one of taskID and jobID, with an integer value,
    passes these checks. *)
Theorem jobs_get_keys :
  (∀ filter w,
     "taskID" ∈ dom filter → "jobID" ∈ dom filter →
     ∃ e, jobs_get filter w = (inl e, w)
          ∧ ((∃ message, e = ArgumentError message) ∨ e = TypeError)
          ∧ (plain filter → ∃ message, e = ArgumentError message))
  ∧ (∀ w, jobs_get ∅ w = (inl (ArgumentError "Job filter must not be empty"), w))
  ∧ (∀ key v,
       key = "taskID" ∨ key = "jobID" → isInteger v = true →
       jobs_get_validate {[ key := v ]} = inr tt)
  ∧ (∀ taskID jobID v w,
       isInteger taskID = true → isInteger jobID = true →
       jobs_get {[ "__defineGetter__" := v; "taskID" := taskID; "jobID" := jobID ]} w
       = (inl TypeError, w)).
Proof.
  split; [|split; [|split]].
  - intros filter w Ht Hj.
    destruct (jobs_get_validate filter) as [e|[]] eqn:H.
    + exists e. split; [by apply jobs_get_invalid|]. split.
      * destruct (jobs_get_validate_outcome filter) as [?|[[message ?]|?]];
          [congruence|left; exists message; congruence|right; congruence].
      * intros Hplain.
        destruct (jobs_get_validate_plain filter Hplain) as [?|[message ?]];
          [congruence|exists message; congruence].
    + exfalso. unfold jobs_get_validate in H. destruct (checkFilter _ _); [done|].
      by rewrite (proj2 (has_property_dom _ _) Ht), (proj2 (has_property_dom _ _) Hj) in H.
  - intros w. apply jobs_get_invalid. unfold jobs_get_validate, checkFilter.
    by rewrite for_in_empty.
  - apply jobs_get_validate_single.
  - intros taskID jobID v w Ht Hj. apply jobs_get_invalid. unfold jobs_get_validate.
    rewrite (checkFilter_with_uncallable jobs_fields); [done..| |].
    + set_solver.
    + intros p x Hp. apply lookup_insert_Some in Hp as [[<- <-]|[_ Hp]].
      * by apply (accepted_written _ _ _ isInteger).
      * apply lookup_singleton_Some in Hp as [<- <-].
        by apply (accepted_written _ _ _ isInteger).
Qed.

(** C9: with the filter whose only key is jobID, with the value 0, and a
    server that answers, cvat.jobs.get returns all the jobs of the task it
    fetched: 0 is falsy, so the last line does not filter by id. *)
Theorem jobs_get_jobID_zero (w : world) job s task_id tasks w' :
  jobs_getJob (VInt 0) (server w) = (inr job, s) →
  read_prop job "task_id" = inr task_id →
  tasks_get {[ "id" := task_id ]} (requested (Call_getJob (VInt 0)) s w)
    = (inr tasks, w') →
  jobs_get {[ "jobID" := VInt 0 ]} w
    = (inr (Task_jobs (new_ Task (hd VUndefined tasks))), w').
Proof.
  intros Hjob Hid Htasks. unfold jobs_get.
  assert (jobs_get_validate {[ "jobID" := VInt 0 ]} = inr tt) as ->.
  { apply jobs_get_validate_single; [by right|done]. }
  unfold bind at 1. unfold lift at 1.
  assert (has_property "taskID" ({[ "jobID" := VInt 0 ]} : gmap string value) = false)
    as -> by done.
  assert (get_field {[ "jobID" := VInt 0 ]} "jobID" = VInt 0) as -> by done.
  unfold bind at 1 2 3. unfold request at 1. rewrite Hjob.
  unfold get_prop, lift at 1. rewrite Hid.
  fold (requested (Call_getJob (VInt 0)) s w). rewrite Htasks. done.
Qed.

End JobsGet.

(** ** Validation comes before the server *)

Section Validation.

Context `{host : Host} `{proxy : ServerProxy}.

(** C10: when the validation of the filter an operation was called with
    fails, in cvat.users.get, cvat.jobs.get or cvat.tasks.get, by the checker
    table or by a rule across fields, the call ends with that error in the
    world it started in: no request to the server proxy has been recorded.
    cvat.jobs.get with jobID alone goes on to the validation of
    cvat.tasks.get, on the task_id of the job: an error of that one comes
    after the request getJob. *)
Theorem validation_precedes_requests (filter : gmap string value) (w : world) :
  (∀ e, checkFilter filter users_fields = inl e →
        users_get filter w = (inl e, w)
        ∧ calls (snd (users_get filter w)) = calls w)
  ∧ (∀ e, jobs_get_validate filter = inl e →
          jobs_get filter w = (inl e, w)
          ∧ calls (snd (jobs_get filter w)) = calls w)
  ∧ (∀ e, tasks_get_validate filter = inl e →
          tasks_get filter w = (inl e, w)
          ∧ calls (snd (tasks_get filter w)) = calls w)
  ∧ (∀ jobID job s task_id e,
       isInteger jobID = true →
       jobs_getJob jobID (server w) = (inr job, s) →
       read_prop job "task_id" = inr task_id →
       tasks_get_validate {[ "id" := task_id ]} = inl e →
       jobs_get {[ "jobID" := jobID ]} w = (inl e, requested (Call_getJob jobID) s w)
       ∧ calls (snd (jobs_get {[ "jobID" := jobID ]} w))
         = (calls w ++ [Call_getJob jobID])%list).
Proof.
  split; [|split; [|split]].
  - intros e He. by rewrite (users_get_invalid _ _ w He).
  - intros e He. by rewrite (jobs_get_invalid _ _ w He).
  - intros e He. by rewrite (tasks_get_invalid _ _ w He).
  - intros jobID job s task_id e Hint Hjob Hid He.
    assert (jobs_get {[ "jobID" := jobID ]} w
            = (inl e, requested (Call_getJob jobID) s w)) as ->; [|done].
    unfold jobs_get.
    rewrite (jobs_get_validate_single "jobID" jobID) by auto.
    unfold bind at 1. unfold lift at 1.
    assert (has_property "taskID" ({[ "jobID" := jobID ]} : gmap string value) = false)
      as -> by done.
    assert (get_field {[ "jobID" := jobID ]} "jobID" = jobID) as -> by done.
    unfold bind at 1 2 3. unfold request at 1. rewrite Hjob.
    unfold get_prop, lift at 1. rewrite Hid.
    unfold tasks_get, bind, lift. by rewrite He.
Qed.

(** The filter cvat.jobs.get makes for cvat.tasks.get passes the validation
    there when the id is an integer. *)
Lemma tasks_get_validate_id v :
  isInteger v = true → tasks_get_validate {[ "id" := v ]} = inr tt.
Proof.
  intros Hint. unfold tasks_get_validate.
  assert (checkFilter {[ "id" := v ]} tasks_fields = inr tt) as ->.
  { apply checkFilter_passes. intros prop x Hin.
    apply lookup_singleton_Some in Hin as [<- <-].
    by apply (accepted_written _ _ _ isInteger). }
  assert (length (Object_keys ({[ "id" := v ]} : gmap string value)) = 1%nat) as ->.
  { by rewrite length_Object_keys, map_size_singleton. }
  by rewrite !andb_false_r.
Qed.

(** Filtering the jobs by id raises nothing but the TypeError of a read. *)
Lemma filter_by_id_outcome jobID jobs w :
  (∃ kept, filter_by_id jobID jobs w = (inr kept, w))
  ∨ filter_by_id jobID jobs w = (inl TypeError, w).
Proof.
  induction jobs as [|job rest IH]; simpl; [left; by eexists|].
  unfold bind, get_prop, lift.
  destruct job; simpl; try (by right);
    destruct IH as [[kept ->]| ->]; (by right) || (left; by eexists).
Qed.

Section AnsweringServer.

(** A server proxy whose failures are not ArgumentErrors, and whose job
    records carry an integer task_id. *)
Hypothesis getSelf_failure : ∀ s e message,
  fst (users_getSelf s) = inl e → e ≠ ArgumentError message.
Hypothesis getUsers_failure : ∀ s e message,
  fst (users_getUsers s) = inl e → e ≠ ArgumentError message.
Hypothesis getJob_failure : ∀ v s e message,
  fst (jobs_getJob v s) = inl e → e ≠ ArgumentError message.
Hypothesis getTasks_failure : ∀ q s e message,
  fst (tasks_getTasks q s) = inl e → e ≠ ArgumentError message.
Hypothesis job_task_id : ∀ v s job task_id,
  fst (jobs_getJob v s) = inr job → read_prop job "task_id" = inr task_id →
  isInteger task_id = true.

Lemma users_get_ArgumentError filter w message :
  fst (users_get filter w) = inl (ArgumentError message) →
  users_get filter w = (inl (ArgumentError message), w).
Proof.
  unfold users_get, bind, lift.
  destruct (checkFilter filter users_fields) as [e|[]]; [by intros [= ->]|].
  destruct (_ && _); unfold request, ret.
  - destruct (users_getSelf (server w)) as [[e|user] s] eqn:E; simpl; [|done].
    intros [= ->]. by destruct (getSelf_failure (server w) _ message (f_equal fst E)).
  - destruct (users_getUsers (server w)) as [[e|users] s] eqn:E; simpl; [|done].
    intros [= ->]. by destruct (getUsers_failure (server w) _ message (f_equal fst E)).
Qed.

Lemma tasks_get_ArgumentError filter w message :
  fst (tasks_get filter w) = inl (ArgumentError message) →
  tasks_get filter w = (inl (ArgumentError message), w).
Proof.
  unfold tasks_get, bind, lift.
  destruct (tasks_get_validate filter) as [e|[]]; [by intros [= ->]|].
  unfold request, ret.
  destruct (tasks_getTasks _ (server w)) as [[e|tasks] s] eqn:E; simpl; [|done].
  intros [= ->]. by destruct (getTasks_failure _ (server w) _ message (f_equal fst E)).
Qed.

(** X18: on such a server an ArgumentError of cvat.users.get, cvat.jobs.get
    or cvat.tasks.get, whichever call of checkFilter or rule it comes from,
    leaves the world as it was. *)
Lemma ArgumentError_without_request filter w message :
  (fst (users_get filter w) = inl (ArgumentError message) →
   snd (users_get filter w) = w)
  ∧ (fst (jobs_get filter w) = inl (ArgumentError message) →
     snd (jobs_get filter w) = w)
  ∧ (fst (tasks_get filter w) = inl (ArgumentError message) →
     snd (tasks_get filter w) = w).
Proof.
  split; [|split].
  - intros H. by rewrite (users_get_ArgumentError _ _ _ H).
  - unfold jobs_get. unfold bind at 1. unfold lift at 1.
    destruct (jobs_get_validate filter) as [e|[]]; [done|].
    destruct (has_property "taskID" filter).
    + unfold bind.
      destruct (tasks_get _ w) as [[e|tasks] w1] eqn:E.
      * simpl. intros [= ->]. rewrite E. simpl.
        pose proof (tasks_get_ArgumentError _ _ _ (f_equal fst E)) as E'.
        rewrite E in E'. by simplify_eq.
      * rewrite ?E. destruct (truthy _); [|done].
        destruct (filter_by_id_outcome (get_field filter "jobID")
                    (Task_jobs (new_ Task (hd VUndefined tasks))) w1)
          as [[kept ->]| ->]; done.
    + unfold bind at 1 2. unfold request.
      destruct (jobs_getJob _ (server w)) as [[e|job] s] eqn:E; simpl.
      { intros [= ->]. by destruct (getJob_failure _ (server w) _ message (f_equal fst E)). }
      unfold bind at 1. unfold get_prop, lift at 1.
      destruct (read_prop job "task_id") as [e|task_id] eqn:Hid.
      { destruct job; simplify_eq/=; done. }
      pose proof (job_task_id _ _ _ _ (f_equal fst E) Hid) as Hint.
      unfold tasks_get, bind, lift. rewrite (tasks_get_validate_id _ Hint).
      unfold request, ret. simpl.
      match goal with |- context [tasks_getTasks ?q s] =>
        destruct (tasks_getTasks q s) as [[e|tasks] s'] eqn:E'; simpl
      end.
      { intros [= ->]. by destruct (getTasks_failure _ s _ message (f_equal fst E')). }
      destruct (truthy _); [|done].
      match goal with |- context [filter_by_id ?i ?l ?x] =>
        destruct (filter_by_id_outcome i l x) as [[kept ->]| ->]; done
      end.
  - intros H. by rewrite (tasks_get_ArgumentError _ _ _ H).
Qed.

End AnsweringServer.

End Validation.

(** ** The handlers *)

Section Handlers.

Context `{host : Host} `{proxy : ServerProxy}.

(** With a valid context, the wrapper runs the wrapped function and hands
    over its outcome. *)
Lemma setupEnv_valid (f : wrapped) this args w :
  valid_context this →
  ∃ w1, setupEnv f this args w = (fst (f this args w1), cleared (snd (f this args w1))).
Proof.
  destruct this as [| | | | |r]; try done. intros Hvalid.
  destruct (has_class r Task) eqn:HT.
  - exists (with_hidden (<["taskID" := prop r "id"]> (hidden w)) w).
    rewrite (setupEnv_Task f r args w HT).
    by destruct (f (VObject r) args _).
  - destruct Hvalid as [?|(HJ & task_id & Hid)]; [congruence|].
    exists (with_hidden (<["taskID" := task_id]> (<["jobID" := prop r "id"]> (hidden w))) w).
    rewrite (setupEnv_Job f r task_id args w HT HJ Hid).
    by destruct (f (VObject r) args _).
Qed.

Lemma stubs_complete a m this args w v :
  valid_context this → placeholder m = Some v →
  fst (implementation a m this args w) = inr v.
Proof.
  intros Hvalid Hm. unfold implementation.
  destruct (setupEnv_valid (fun _ args => arrow m args) this args w Hvalid) as [w1 ->].
  destruct m; simplify_eq/=; done.
Qed.

(** C8: the handlers of statistics, get and frames.get do not complete: each
    names a class that the module neither defines nor requires, and raises a
    ReferenceError when no global has that name. *)
Theorem handlers_of_unbound_classes a this args w :
  valid_context this →
  (global "Statistics" = None →
   fst (implementation a annotations_statistics this args w)
     = inl (ReferenceError "Statistics"))
  ∧ (global "ObjectState" = None →
     fst (implementation a annotations_get this args w)
       = inl (ReferenceError "ObjectState"))
  ∧ (global "FrameData" = None →
     fst (implementation a frames_get this args w)
       = inl (ReferenceError "FrameData")).
Proof.
  intros Hvalid. unfold implementation.
  split; [|split]; intros Hglobal;
    match goal with |- context [setupEnv ?f _ _ _] =>
      destruct (setupEnv_valid f this args w Hvalid) as [w1 ->]
    end; simpl; unfold bind, global_get; by rewrite Hglobal.
Qed.

End Handlers.


(** * The properties on the page of [Demo] *)

Import Demo.

Lemma checkFilter_inherited_names_witness :
  users_fields !! "toString" = None
  ∧ checkFilter (host := demo_host) {[ "toString" := VInt 1 ]} users_fields = inr tt
  ∧ checkFilter (host := demo_host) {[ "__proto__" := VInt 1 ]} users_fields
    = inl TypeError.
Proof.
  split; [reflexivity|]. split.
  - apply (proj1 (checkFilter_inherited_names (host := demo_host) users_fields
                    "toString" (VInt 1) eq_refl)).
    apply elem_of_cons. right. apply elem_of_cons. left. reflexivity.
  - apply (proj2 (checkFilter_inherited_names (host := demo_host) users_fields
                    "__proto__" (VInt 1) eq_refl)).
    apply elem_of_cons. left. reflexivity.
Defined.

Lemma setupEnv_context_witness :
  let f : @wrapped demo_proxy :=
    fun _ _ w =>
      (inr (VString (ToString (host := demo_host) (get_field (hidden w) "taskID")
                     ++ "," ++
                     ToString (host := demo_host) (get_field (hidden w) "jobID"))),
       w) in
  setupEnv (host := demo_host) f (VObject 20) [] demo_world
    = (inl (ScriptingError "Bad context for the function"), demo_world)
  ∧ setupEnv (host := demo_host) f (VObject 1) [] demo_world
      = (inr (VString "7,undefined"), demo_world)
  ∧ setupEnv (host := demo_host) f (VObject 2) [] demo_world
      = (inr (VString "7,3"), demo_world).
Proof.
  intros f.
  pose proof (setupEnv_context (host := demo_host) f [] demo_world)
    as (Hother & HTask & HJob).
  split; [|split].
  - rewrite (Hother (VObject 20)); reflexivity.
  - rewrite (HTask 1%positive); reflexivity.
  - rewrite (HJob 2%positive (VInt 7)); reflexivity.
Defined.

Lemma tasks_get_cross_field_witness :
  plain {[ "search" := VString "cat"; "name" := VString "a" ]}
  ∧ (∃ message,
       tasks_get (host := demo_host) {[ "search" := VString "cat"; "name" := VString "a" ]}
         demo_world = (inl (ArgumentError message), demo_world))
  ∧ (∃ message,
       tasks_get (host := demo_host) {[ "id" := VInt 7; "name" := VString "a" ]}
         demo_world = (inl (ArgumentError message), demo_world))
  ∧ tasks_get_validate (host := demo_host) {[ "search" := VString "cat" ]} = inr tt
  ∧ tasks_get_validate (host := demo_host) {[ "id" := VInt 7 ]} = inr tt
  ∧ tasks_get_validate (host := demo_host) {[ "name" := VString "a" ]} = inr tt
  ∧ tasks_get (host := demo_host) {[ "__defineGetter__" := VInt 1; "search" := VString "cat" ]}
      demo_world = (inl TypeError, demo_world).
Proof.
  assert (plain {[ "search" := VString "cat"; "name" := VString "a" ]}) as Hplain.
  { apply plain_disjoint. apply (bool_decide_unpack _). vm_compute. reflexivity. }
  assert (plain {[ "id" := VInt 7; "name" := VString "a" ]}) as Hplain'.
  { apply plain_disjoint. apply (bool_decide_unpack _). vm_compute. reflexivity. }
  split; [exact Hplain|]. split; [|split; [|split; [|split; [|split]]]].
  - destruct (proj1 (tasks_get_cross_field (host := demo_host) (proxy := demo_proxy)
                      {[ "search" := VString "cat"; "name" := VString "a" ]})
               "name" demo_world) as (e & He & _ & Hkind).
    + apply elem_of_dom. eexists. reflexivity.
    + apply elem_of_dom. eexists. reflexivity.
    + discriminate.
    + destruct (Hkind Hplain) as [message ->]. exists message. exact He.
  - destruct (proj1 (proj2 (tasks_get_cross_field (host := demo_host) (proxy := demo_proxy)
                             {[ "id" := VInt 7; "name" := VString "a" ]}))
               "name" demo_world) as (e & He & _ & Hkind).
    + apply elem_of_dom. eexists. reflexivity.
    + apply elem_of_dom. eexists. reflexivity.
    + discriminate.
    + destruct (Hkind Hplain') as [message ->]. exists message. exact He.
  - rewrite (proj1 (proj2 (proj2 (tasks_get_cross_field
                                    (host := demo_host) (proxy := demo_proxy) _)))).
    + reflexivity.
    + left. apply dom_singleton_L.
  - rewrite (proj1 (proj2 (proj2 (tasks_get_cross_field
                                    (host := demo_host) (proxy := demo_proxy) _)))).
    + reflexivity.
    + right; left. apply dom_singleton_L.
  - rewrite (proj1 (proj2 (proj2 (tasks_get_cross_field
                                    (host := demo_host) (proxy := demo_proxy) _)))).
    + reflexivity.
    + right; right. rewrite dom_singleton_L. split; apply not_elem_of_singleton; discriminate.
  - apply (proj2 (proj2 (proj2 (tasks_get_cross_field
                                  (host := demo_host) (proxy := demo_proxy) ∅)))).
Defined.

Lemma jobs_get_keys_witness :
  plain {[ "taskID" := VInt 7; "jobID" := VInt 3 ]}
  ∧ (∃ message,
       jobs_get (host := demo_host) {[ "taskID" := VInt 7; "jobID" := VInt 3 ]} demo_world
         = (inl (ArgumentError message), demo_world))
  ∧ jobs_get (host := demo_host) ∅ demo_world
      = (inl (ArgumentError "Job filter must not be empty"), demo_world)
  ∧ jobs_get_validate (host := demo_host) {[ "taskID" := VInt 7 ]} = inr tt
  ∧ jobs_get_validate (host := demo_host) {[ "jobID" := VInt 3 ]} = inr tt
  ∧ jobs_get (host := demo_host)
      {[ "__defineGetter__" := VInt 0; "taskID" := VInt 1; "jobID" := VInt 2 ]} demo_world
    = (inl TypeError, demo_world).
Proof.
  pose proof (jobs_get_keys (host := demo_host) (proxy := demo_proxy))
    as (Hboth & Hempty & Hone & Hthird).
  assert (plain {[ "taskID" := VInt 7; "jobID" := VInt 3 ]}) as Hplain.
  { apply plain_disjoint. apply (bool_decide_unpack _). vm_compute. reflexivity. }
  split; [exact Hplain|]. split; [|split; [|split; [|split]]].
  - destruct (Hboth {[ "taskID" := VInt 7; "jobID" := VInt 3 ]} demo_world)
      as (e & He & _ & Hkind).
    + apply elem_of_dom; eexists; reflexivity.
    + apply elem_of_dom; eexists; reflexivity.
    + destruct (Hkind Hplain) as [message ->]. exists message. exact He.
  - apply Hempty.
  - apply Hone; [left|]; reflexivity.
  - apply Hone; [right|]; reflexivity.
  - apply Hthird; reflexivity.
Defined.

Lemma tasks_get_query_witness :
  tasks_get_validate (host := demo_host)
    {[ "name" := VString "a"; "status" := VString "completed" ]} = inr tt
  ∧ tasks_get (host := demo_host)
      {[ "name" := VString "a"; "status" := VString "completed" ]} demo_world
    = (inr [VObject 1],
       @World demo_proxy ∅ 1%nat [Call_getTasks "name=a&status=completed"]).
Proof.
  assert (tasks_get_validate (host := demo_host)
            {[ "name" := VString "a"; "status" := VString "completed" ]} = inr tt)
    as Hvalid by reflexivity.
  split; [exact Hvalid|].
  rewrite (proj1 (tasks_get_query (host := demo_host) (proxy := demo_proxy)
                    {[ "name" := VString "a"; "status" := VString "completed" ]}
                    demo_world) Hvalid).
  reflexivity.
Defined.

Lemma users_get_self_or_all_witness :
  checkFilter (host := demo_host) {[ "self" := VBool true ]} users_fields = inr tt
  ∧ users_get (host := demo_host) {[ "self" := VBool true ]} demo_world
    = (inr [VObject 20], @World demo_proxy ∅ 1%nat [Call_getSelf])
  ∧ users_get (host := demo_host) {[ "self" := VBool false ]} demo_world
    = (inr [VObject 20; VObject 21], @World demo_proxy ∅ 1%nat [Call_getUsers])
  ∧ users_get (host := demo_host) ∅ demo_world
    = (inr [VObject 20; VObject 21], @World demo_proxy ∅ 1%nat [Call_getUsers]).
Proof.
  assert (checkFilter (host := demo_host) {[ "self" := VBool true ]} users_fields = inr tt)
    as Htrue by reflexivity.
  assert (checkFilter (host := demo_host) {[ "self" := VBool false ]} users_fields = inr tt)
    as Hfalse by reflexivity.
  assert (checkFilter (host := demo_host) ∅ users_fields = inr tt) as Hempty by reflexivity.
  split; [exact Htrue|]. split; [|split].
  - rewrite (proj1 (users_get_self_or_all (host := demo_host) (proxy := demo_proxy)
                      {[ "self" := VBool true ]} demo_world Htrue));
      reflexivity.
  - rewrite (proj2 (users_get_self_or_all (host := demo_host) (proxy := demo_proxy)
                      {[ "self" := VBool false ]} demo_world Hfalse));
      [reflexivity|discriminate].
  - rewrite (proj2 (users_get_self_or_all (host := demo_host) (proxy := demo_proxy)
                      ∅ demo_world Hempty));
      [reflexivity|discriminate].
Defined.

Lemma jobs_get_jobID_zero_witness :
  Task_jobs (Host := demo_host) (VObject 1) = [VObject 10; VObject 11]
  ∧ prop (Host := demo_host) 11 "id" = VInt 1
  ∧ jobs_get (host := demo_host) {[ "jobID" := VInt 0 ]} demo_world
    = (inr [VObject 10; VObject 11],
       @World demo_proxy ∅ 2%nat [Call_getJob (VInt 0); Call_getTasks "id=7"]).
Proof.
  split; [reflexivity|]. split; [reflexivity|].
  apply (jobs_get_jobID_zero (host := demo_host) (proxy := demo_proxy)
           demo_world (VObject 5) 1%nat (VInt 7) [VObject 1]); reflexivity.
Defined.

Lemma validation_precedes_requests_witness :
  users_get (host := demo_host) {[ "self" := VInt 1 ]} demo_world
    = (inl (unsatisfied "self"), demo_world)
  ∧ jobs_get (host := demo_host) {[ "taskID" := VInt 7; "jobID" := VInt 3 ]} demo_world
    = (inl (ArgumentError
              ("Only one of fields " ++ quoted "taskID" ++ " and " ++ quoted "jobID"
               ++ " allowed simultaneously")), demo_world)
  ∧ tasks_get (host := demo_host) {[ "owner" := VInt 7 ]} demo_world
    = (inl (unsatisfied "owner"), demo_world)
  ∧ calls (snd (jobs_get (host := demo_host) (proxy := odd_proxy)
                  {[ "jobID" := VInt 3 ]} odd_world))
    = [Call_getJob (VInt 3)].
Proof.
  split; [|split; [|split]].
  - apply (proj1 (validation_precedes_requests (host := demo_host) (proxy := demo_proxy)
                    {[ "self" := VInt 1 ]} demo_world) (unsatisfied "self")).
    reflexivity.
  - apply (proj1 (proj2 (validation_precedes_requests
                           (host := demo_host) (proxy := demo_proxy)
                           {[ "taskID" := VInt 7; "jobID" := VInt 3 ]} demo_world)) _).
    reflexivity.
  - apply (proj1 (proj2 (proj2 (validation_precedes_requests
                                  (host := demo_host) (proxy := demo_proxy)
                                  {[ "owner" := VInt 7 ]} demo_world)))
             (unsatisfied "owner")).
    reflexivity.
  - apply (proj2 (proj2 (proj2 (validation_precedes_requests
                                  (host := demo_host) (proxy := odd_proxy)
                                  ∅ odd_world)))
             (VInt 3) (VObject 6) 1%nat VUndefined (unsatisfied "id"));
      reflexivity.
Defined.

(** An ArgumentError that follows a request: called with jobID alone on a
    server whose record of the job has no integer task_id, cvat.jobs.get ends
    with the ArgumentError of the validation in cvat.tasks.get once the
    request getJob has been made. *)
Lemma jobs_get_request_before_ArgumentError :
  ¬ no_request_before_ArgumentError (jobs_get (host := demo_host) (proxy := odd_proxy)).
Proof.
  intros Hnone.
  specialize (Hnone {[ "jobID" := VInt 3 ]} odd_world
                ("Received filter property id was not satisfied for checker")
                eq_refl).
  vm_compute in Hnone. discriminate Hnone.
Qed.

Lemma handlers_of_unbound_classes_witness :
  valid_context (host := demo_host) (VObject 2)
  ∧ global (Host := demo_host) "Statistics" = None
  ∧ fst (implementation (host := demo_host) jobAPI annotations_statistics
           (VObject 2) [] demo_world) = inl (ReferenceError "Statistics")
  ∧ fst (implementation (host := demo_host) taskAPI annotations_get
           (VObject 1) [VInt 0] demo_world) = inl (ReferenceError "ObjectState")
  ∧ fst (implementation (host := demo_host) jobAPI frames_get
           (VObject 2) [VInt 0] demo_world) = inl (ReferenceError "FrameData").
Proof.
  assert (valid_context (host := demo_host) (VObject 2)) as Hjob.
  { right. split; [reflexivity|]. exists (VInt 7). reflexivity. }
  assert (valid_context (host := demo_host) (VObject 1)) as Htask.
  { left. reflexivity. }
  split; [exact Hjob|]. split; [reflexivity|]. split; [|split].
  - apply (proj1 (handlers_of_unbound_classes (host := demo_host) (proxy := demo_proxy)
                    jobAPI (VObject 2) [] demo_world Hjob)).
    reflexivity.
  - apply (proj1 (proj2 (handlers_of_unbound_classes
                           (host := demo_host) (proxy := demo_proxy)
                           taskAPI (VObject 1) [VInt 0] demo_world Htask))).
    reflexivity.
  - apply (proj2 (proj2 (handlers_of_unbound_classes
                           (host := demo_host) (proxy := demo_proxy)
                           jobAPI (VObject 2) [VInt 0] demo_world Hjob))).
    reflexivity.
Defined.

(** * Further properties of the module *)

(** ** The checkers and checkFilter *)

Section Checkers.

Context `{host : Host}.

(** X1: the error of checkFilter comes from a property the filter really has:
    Unsupported for a name the table neither writes nor inherits, not
    satisfied for one whose call on the value gives a falsy result, and a
    TypeError for a name the table inherits and cannot call as a checker. *)
Theorem checkFilter_error_names_property (fields : gmap string (value -> bool))
    (filter : gmap string value) e :
  checkFilter filter fields = inl e →
  ∃ prop v, filter !! prop = Some v
    ∧ ((e = unsupported prop
        ∧ fields !! prop = None ∧ Object_prototype !! prop = None)
       ∨ (e = unsatisfied prop ∧ table_call fields prop v = inr false)
       ∨ (e = TypeError
          ∧ fields !! prop = None ∧ table_call fields prop v = inl TypeError)).
Proof.
  intros H. destruct (checkFilter_loop_error _ _ _ H) as (prop & v & Hin & Hwhy).
  exists prop, v. split; [by apply for_in_elem|].
  destruct Hwhy as [[Hno ->]|[(_ & Hcall & ->)|(_ & Hcall & ->)]].
  - left. split; [done|]. unfold table_in, has_property in Hno.
    apply orb_false_iff in Hno as [Hw Hi].
    apply bool_decide_eq_false in Hw, Hi.
    split; apply eq_None_not_Some; done.
  - right; left. done.
  - right; right. split; [done|]. split; [|done].
    unfold table_call in Hcall. by destruct (fields !! prop).
Qed.

Lemma call_member_weaken (fields fields' : gmap string (value -> bool)) m v :
  fields ⊆ fields' →
  (∀ prop, fields !! prop = None → is_Some (fields' !! prop) →
           Object_prototype !! prop = None) →
  call_member m fields v = inr true → call_member m fields' v = inr true.
Proof.
  intros Hsub Hnew.
  assert (∀ k, has_property k fields = true → has_property k fields' = true) as Hhas.
  { intros k Hk. apply has_property_dom in Hk. apply has_property_dom.
    by apply (subseteq_dom _ _ Hsub). }
  assert (∀ k, Object_prototype !! k ≠ None → fields !! k = None → fields' !! k = None)
    as Hkeep.
  { intros k Hk Hnone. destruct (fields' !! k) eqn:E; [|done].
    by destruct Hk; apply Hnew; [|eexists]. }
  destruct m; simpl; try done.
  - intros [= Hk]. by rewrite (Hhas _ Hk).
  - intros [= Hk]. by rewrite (Hhas _ Hk).
  - destruct (fields !! "toString") as [checker|] eqn:E.
    + by rewrite (lookup_weaken _ _ _ _ E Hsub).
    + by rewrite (Hkeep "toString").
  - intros [= Hk]. apply andb_true_iff in Hk as [Hnot Hproto].
    apply String.eqb_eq in Hproto. rewrite Hproto in *.
    apply negb_true_iff, has_property_not_dom, not_elem_of_dom in Hnot.
    assert (has_property "__proto__" fields' = false) as ->; [|done].
    apply has_property_not_dom, not_elem_of_dom. by apply Hkeep.
  - intros [= Hk]. apply andb_true_iff in Hk as [Hnot Hproto].
    apply String.eqb_eq in Hproto. rewrite Hproto in *.
    apply negb_true_iff, has_property_not_dom, not_elem_of_dom in Hnot.
    assert (has_property "__proto__" fields' = false) as ->; [|done].
    apply has_property_not_dom, not_elem_of_dom. by apply Hkeep.
Qed.

(** X2: a filter that passes keeps passing when properties are taken out of
    it, and when checkers are added to the table under names that are not
    those of [Object.prototype]. *)
Theorem checkFilter_monotone (filter filter' : gmap string value)
    (fields fields' : gmap string (value -> bool)) :
  filter' ⊆ filter → fields ⊆ fields' →
  (∀ prop, fields !! prop = None → is_Some (fields' !! prop) →
           Object_prototype !! prop = None) →
  checkFilter filter fields = inr tt → checkFilter filter' fields' = inr tt.
Proof.
  intros Hfilter Hfields Hnew Hpass. apply checkFilter_passes. intros prop v Hin.
  destruct (proj1 (checkFilter_passes fields filter) Hpass prop v
              (lookup_weaken _ _ _ _ Hin Hfilter)) as [Htable Hcall].
  unfold accepted, table_in, table_call in *.
  destruct (fields !! prop) as [checker|] eqn:E.
  - rewrite (lookup_weaken _ _ _ _ E Hfields).
    by rewrite (has_property_lookup _ _ _ (lookup_weaken _ _ _ _ E Hfields)).
  - destruct (Object_prototype !! prop) as [m|] eqn:Em; [|done].
    assert (fields' !! prop = None) as E'.
    { destruct (fields' !! prop) eqn:E'; [|done].
      by rewrite (Hnew prop E (mk_is_Some _ _ E')) in Em. }
    rewrite E'. split.
    + rewrite bool_decide_eq_true_2 by done. apply orb_true_r.
    + by apply (call_member_weaken fields).
Qed.

(** X22: on a filter with no key named like a property of
    [Object.prototype], checkFilter raises an ArgumentError as soon as some
    property has no checker written in the table, or one that does not hold
    of its value, and returns normally when every property has a checker
    that holds. *)
Theorem checkFilter_plain_spec (fields : gmap string (value -> bool))
    (filter : gmap string value) :
  plain filter →
  ((∃ prop v, filter !! prop = Some v
      ∧ (fields !! prop = None
         ∨ ∃ checker, fields !! prop = Some checker ∧ checker v = false)) →
   ∃ message, checkFilter filter fields = inl (ArgumentError message))
  ∧ ((∀ prop v, filter !! prop = Some v →
        ∃ checker, fields !! prop = Some checker ∧ checker v = true) →
     checkFilter filter fields = inr tt).
Proof.
  intros Hplain. split.
  - intros (prop & v & Hin & Hbad).
    destruct (checkFilter_plain_outcome fields filter Hplain) as [Hpass|Hfail];
      [exfalso|done].
    pose proof (proj1 (checkFilter_passes fields filter) Hpass prop v Hin) as Hacc.
    apply (accepted_plain _ _ _ (Hplain prop (mk_is_Some _ _ Hin))) in Hacc
      as (checker & Hc & Hv).
    destruct Hbad as [Hnone|(checker' & Hc' & Hv')]; congruence.
  - intros Hall. apply checkFilter_passes. intros prop v Hin.
    destruct (Hall prop v Hin) as (checker & Hc & Hv).
    by apply (accepted_written _ _ _ checker).
Qed.

End Checkers.

Lemma number_equals_NaN n : number_equals n NaN = false.
Proof. by destruct n. Qed.

(** X3: isEnum holds of a value exactly when some own property of the
    enumeration is strictly equal to it; NaN is in no enumeration, not even
    in one that holds NaN. *)
Theorem isEnum_spec (this : gmap string value) (v : value) :
  (isEnum this v = true
   ↔ ∃ key x, this !! key = Some x ∧ strict_equals x v = true)
  ∧ isEnum this (VNumber NaN) = false.
Proof.
  split.
  - unfold isEnum. rewrite existsb_exists. split.
    + intros ([key x] & Hin & Heq). exists key, x. split; [|done].
      by apply elem_of_map_to_list, list_elem_of_In.
    + intros (key & x & Hin & Heq). exists (key, x). split; [|done].
      by apply list_elem_of_In, elem_of_map_to_list.
  - apply not_true_is_false. unfold isEnum. rewrite existsb_exists.
    intros ([key x] & _ & Heq). simpl in Heq.
    destruct x; simpl in Heq; try done. by rewrite number_equals_NaN in Heq.
Qed.

(** X4: isInteger holds exactly of the numbers whose value is an integer:
    no string, boolean, null or undefined passes, nor NaN nor an infinity. *)
Theorem isInteger_spec (v : value) :
  isInteger v = true ↔ ∃ q z, v = VNumber (Finite q) ∧ (q == inject_Z z)%Q.
Proof.
  split.
  - destruct v as [| | |[q| |]| |]; simpl; try done.
    intros H. apply Z.eqb_eq in H.
    exists q, (Qnum q / Z.pos (Qden q)). split; [done|].
    unfold Qeq. simpl. rewrite Z.mul_1_r.
    rewrite Z.mul_comm. by apply Z_div_exact_full_2.
  - intros (q & z & -> & Heq). simpl. apply Z.eqb_eq.
    unfold Qeq in Heq. simpl in Heq. rewrite Z.mul_1_r in Heq. rewrite Heq.
    apply Z_mod_mult.
Qed.

Lemma checkFilter_error_names_property_witness :
  checkFilter (host := demo_host) {[ "hasOwnProperty" := VString "name" ]} users_fields
    = inl (unsatisfied "hasOwnProperty")
  ∧ ∃ prop v,
      ({[ "hasOwnProperty" := VString "name" ]} : gmap string value) !! prop = Some v
      ∧ ((unsatisfied "hasOwnProperty" = unsupported prop
          ∧ users_fields !! prop = None ∧ Object_prototype !! prop = None)
         ∨ (unsatisfied "hasOwnProperty" = unsatisfied prop
            ∧ table_call (host := demo_host) users_fields prop v = inr false)
         ∨ (unsatisfied "hasOwnProperty" = TypeError
            ∧ users_fields !! prop = None
            ∧ table_call (host := demo_host) users_fields prop v = inl TypeError)).
Proof.
  assert (checkFilter (host := demo_host) {[ "hasOwnProperty" := VString "name" ]}
            users_fields = inl (unsatisfied "hasOwnProperty")) as H by reflexivity.
  split; [exact H|].
  exact (checkFilter_error_names_property (host := demo_host) _ _ _ H).
Defined.

Lemma checkFilter_plain_spec_witness :
  plain {[ "self" := VInt 1 ]}
  ∧ (∃ message,
       checkFilter (host := demo_host) {[ "self" := VInt 1 ]} users_fields
       = inl (ArgumentError message))
  ∧ (∃ message,
       checkFilter (host := demo_host) {[ "name" := VInt 1 ]} users_fields
       = inl (ArgumentError message))
  ∧ checkFilter (host := demo_host) {[ "self" := VBool false ]} users_fields = inr tt.
Proof.
  assert (∀ k v, k = "self" ∨ k = "name" → plain {[ k := v ]}) as Hplain.
  { intros k v Hk prop [x Hx]. apply lookup_singleton_Some in Hx as [<- _].
    destruct Hk as [->| ->]; reflexivity. }
  split; [apply Hplain; by left|]. split; [|split].
  - apply (proj1 (checkFilter_plain_spec (host := demo_host) users_fields
                    {[ "self" := VInt 1 ]} (Hplain _ _ (or_introl eq_refl)))).
    exists "self", (VInt 1). split; [reflexivity|]. right.
    exists isBoolean. split; reflexivity.
  - apply (proj1 (checkFilter_plain_spec (host := demo_host) users_fields
                    {[ "name" := VInt 1 ]} (Hplain _ _ (or_intror eq_refl)))).
    exists "name", (VInt 1). split; [reflexivity|]. left. reflexivity.
  - apply (proj2 (checkFilter_plain_spec (host := demo_host) users_fields
                    {[ "self" := VBool false ]} (Hplain _ _ (or_introl eq_refl)))).
    intros prop v Hin. apply lookup_singleton_Some in Hin as [<- <-].
    exists isBoolean. split; reflexivity.
Defined.

Lemma checkFilter_monotone_witness :
  checkFilter (host := demo_host) {[ "name" := VString "a"; "id" := VInt 7 ]}
    {[ "name" := isString; "id" := isInteger ]} = inr tt
  ∧ checkFilter (host := demo_host) {[ "id" := VInt 7 ]}
      {[ "name" := isString; "id" := isInteger; "owner" := isString ]} = inr tt.
Proof.
  assert (checkFilter (host := demo_host) {[ "name" := VString "a"; "id" := VInt 7 ]}
            {[ "name" := isString; "id" := isInteger ]} = inr tt) as H by reflexivity.
  split; [exact H|].
  apply (checkFilter_monotone (host := demo_host)
           {[ "name" := VString "a"; "id" := VInt 7 ]} _
           {[ "name" := isString; "id" := isInteger ]} _); [| | |exact H].
  - apply map_subseteq_spec. intros k x Hk.
    apply lookup_singleton_Some in Hk as [<- <-]. reflexivity.
  - apply map_subseteq_spec. intros k x Hk.
    destruct (decide (k = "name")) as [->|]; [by rewrite lookup_insert_eq in Hk |- *|].
    rewrite lookup_insert_ne in Hk by done. rewrite lookup_insert_ne by done.
    apply lookup_singleton_Some in Hk as [<- <-]. by rewrite lookup_insert_eq.
  - intros prop Hnone [x Hx].
    destruct (decide (prop = "name")) as [->|]; [reflexivity|].
    rewrite lookup_insert_ne in Hx by done.
    destruct (decide (prop = "id")) as [->|]; [reflexivity|].
    rewrite lookup_insert_ne in Hx by done.
    apply lookup_singleton_Some in Hx as [<- _]. reflexivity.
Defined.

(** ** The wrapper and the worlds it goes through *)

Section Wrapper.

Context `{host : Host} `{proxy : ServerProxy}.

Lemma same_but_context_refl w : same_but_context w w.
Proof. by repeat split. Qed.

Lemma same_but_context_set k v w :
  k = "taskID" ∨ k = "jobID" →
  ∀ w1, same_but_context w w1 →
  same_but_context w (with_hidden (<[k := v]> (hidden w1)) w1).
Proof.
  intros Hk w1 (Hs & Hc & Hh). repeat split; [done..|].
  intros k' H1 H2. simpl. rewrite lookup_insert_ne; [by apply Hh|].
  destruct Hk as [->| ->]; congruence.
Qed.

Lemma cleared_set_taskID v w :
  cleared (with_hidden (<["taskID" := v]> (hidden w)) w) = cleared w.
Proof.
  unfold cleared, with_hidden. simpl. f_equal. f_equal. apply delete_insert_eq.
Qed.

Lemma cleared_set_jobID v w :
  cleared (with_hidden (<["jobID" := v]> (hidden w)) w) = cleared w.
Proof.
  unfold cleared, with_hidden. simpl. f_equal.
  rewrite delete_insert_ne by done. apply delete_insert_eq.
Qed.

(** X5: the wrapper itself touches nothing but the two slots of the context:
    it asks nothing of the server, keeps every other property of hidden, and
    either does not run the wrapped function or runs it once, in a world that
    differs from the starting one only in the two slots, and hands over its
    outcome. *)
Theorem setupEnv_frame (f : wrapped) this args w :
  ∃ w1, same_but_context w w1
    ∧ ((∃ e, setupEnv f this args w = (inl e, cleared w1))
       ∨ setupEnv f this args w = (fst (f this args w1), cleared (snd (f this args w1)))).
Proof.
  destruct this as [| | | | |r];
    try (exists w; split; [apply same_but_context_refl|];
         left; eexists; by apply setupEnv_other).
  destruct (has_class r Task) eqn:HT.
  { eexists. split; [|right].
    - apply (same_but_context_set "taskID" (prop r "id")); [by left|].
      apply same_but_context_refl.
    - rewrite (setupEnv_Task f r args w HT). by destruct (f (VObject r) args _). }
  destruct (has_class r Job) eqn:HJ.
  2:{ exists w. split; [apply same_but_context_refl|].
      left. eexists. apply setupEnv_other; simpl; done. }
  destruct (read_prop (prop r "task") "id") as [e|task_id] eqn:Hid.
  - exists w. split; [apply same_but_context_refl|]. left. exists e.
    rewrite setupEnv_unfold. simpl. rewrite HT, HJ.
    unfold bind at 1 2 3 4. unfold get_prop at 1 2. simpl.
    unfold get_prop, lift. rewrite Hid.
    f_equal. apply cleared_set_jobID.
  - eexists. split; [|right].
    + apply (same_but_context_set "taskID" task_id); [by left|].
      apply (same_but_context_set "jobID" (prop r "id")); [by right|].
      apply same_but_context_refl.
    + rewrite (setupEnv_Job f r task_id args w HT HJ Hid). simpl.
      by destruct (f (VObject r) args _).
Qed.

(** X6: for a Job whose task is undefined or null the wrapper raises a
    TypeError on this.task.id; the wrapped function is not run, and the
    jobID that was already written is cleared with the rest. *)
Theorem setupEnv_Job_without_task (f : wrapped) r args w :
  has_class r Task = false → has_class r Job = true →
  nullish (prop r "task") = true →
  setupEnv f (VObject r) args w = (inl TypeError, cleared w).
Proof.
  intros HT HJ Hnull. rewrite setupEnv_unfold. simpl. rewrite HT, HJ.
  unfold bind at 1 2 3 4. unfold get_prop at 1 2. simpl.
  unfold get_prop, lift.
  assert (read_prop (prop r "task") "id" = inl TypeError) as ->.
  { by destruct (prop r "task"). }
  f_equal. apply cleared_set_jobID.
Qed.

Lemma setupEnv_clears (f : wrapped) this args w :
  hidden (snd (setupEnv f this args w)) !! "taskID" = None
  ∧ hidden (snd (setupEnv f this args w)) !! "jobID" = None.
Proof.
  rewrite setupEnv_unfold.
  match goal with |- context [let (_, _) := ?x in _] => destruct x as [r w1] end.
  simpl. split.
  - rewrite lookup_delete_ne by done. apply lookup_delete_eq.
  - apply lookup_delete_eq.
Qed.

(** With a valid context the wrapped function is run, in a world that
    differs from the starting one only in the two slots. *)
Lemma setupEnv_valid_frame (f : wrapped) this args w :
  valid_context this →
  ∃ w1, same_but_context w w1
    ∧ setupEnv f this args w = (fst (f this args w1), cleared (snd (f this args w1))).
Proof.
  destruct this as [| | | | |r]; try done. intros Hvalid.
  destruct (has_class r Task) eqn:HT.
  - eexists. split.
    + apply (same_but_context_set "taskID" (prop r "id")); [by left|].
      apply same_but_context_refl.
    + rewrite (setupEnv_Task f r args w HT). by destruct (f (VObject r) args _).
  - destruct Hvalid as [?|(HJ & task_id & Hid)]; [congruence|].
    eexists. split.
    + apply (same_but_context_set "taskID" task_id); [by left|].
      apply (same_but_context_set "jobID" (prop r "id")); [by right|].
      apply same_but_context_refl.
    + rewrite (setupEnv_Job f r task_id args w HT HJ Hid). simpl.
      by destruct (f (VObject r) args _).
Qed.

(** X7: a wrapped call made from inside a wrapped function takes the context
    away from it: what the outer function does after the inner call returns
    runs with hidden.taskID and hidden.jobID deleted, and an error of the
    inner call ends the outer one. *)
Theorem setupEnv_nested (g : wrapped) (rest : value -> M value)
    this args inner_this inner_args w :
  valid_context this →
  ∃ w1, same_but_context w w1
    ∧ hidden (snd (setupEnv g inner_this inner_args w1)) !! "taskID" = None
    ∧ hidden (snd (setupEnv g inner_this inner_args w1)) !! "jobID" = None
    ∧ setupEnv (fun _ _ => x <- setupEnv g inner_this inner_args ;; rest x)
        this args w
      = match setupEnv g inner_this inner_args w1 with
        | (inr x, w2) => (fst (rest x w2), cleared (snd (rest x w2)))
        | (inl e, w2) => (inl e, cleared w2)
        end.
Proof.
  intros Hvalid.
  destruct (setupEnv_valid_frame
              (fun _ _ => x <- setupEnv g inner_this inner_args ;; rest x)
              this args w Hvalid) as (w1 & Hsame & Hrun).
  exists w1. split; [done|].
  destruct (setupEnv_clears g inner_this inner_args w1) as [Ht Hj].
  split; [done|]. split; [done|].
  rewrite Hrun. unfold bind.
  by destruct (setupEnv g inner_this inner_args w1) as [[e|x] w2].
Qed.

End Wrapper.

Lemma setupEnv_Job_without_task_witness :
  has_class (Host := demo_host) 10 Job = true
  ∧ nullish (prop (Host := demo_host) 10 "task") = true
  ∧ setupEnv (host := demo_host) (fun _ _ => ret (VInt 1)) (VObject 10) [] demo_world
    = (inl TypeError, demo_world).
Proof.
  split; [reflexivity|]. split; [reflexivity|].
  rewrite (setupEnv_Job_without_task (host := demo_host) (proxy := demo_proxy)
             (fun _ _ => ret (VInt 1)) 10 [] demo_world); reflexivity.
Defined.

Lemma setupEnv_nested_witness :
  valid_context (host := demo_host) (VObject 2)
  ∧ setupEnv (host := demo_host) (proxy := demo_proxy)
      (fun _ _ =>
         x <- setupEnv (host := demo_host) (fun _ _ => ret (VInt 1)) (VObject 1) [] ;;
         (fun w => (inr (get_field (hidden w) "jobID"), w)))
      (VObject 2) [] demo_world
    = (inr VUndefined, demo_world).
Proof.
  assert (valid_context (host := demo_host) (VObject 2)) as Hvalid.
  { right. split; [reflexivity|]. exists (VInt 7). reflexivity. }
  split; [exact Hvalid|].
  destruct (setupEnv_nested (host := demo_host) (proxy := demo_proxy)
              (fun _ _ => ret (VInt 1))
              (fun _ w => (inr (get_field (hidden w) "jobID"), w))
              (VObject 2) [] (VObject 1) [] demo_world Hvalid)
    as (w1 & _ & _ & _ & _).
  reflexivity.
Defined.

(** ** The filters that pass *)

Section ValidFilters.

Context `{host : Host} `{proxy : ServerProxy}.

(** A map with a key and no more than one key has that key alone. *)
Lemma only_key {V} (o : gmap string V) k :
  k ∈ dom o → (1 <? length (Object_keys o))%nat = false → dom o = {[ k ]}.
Proof.
  intros Hk Hsize. apply Nat.ltb_ge in Hsize. rewrite length_Object_keys in Hsize.
  apply elem_of_dom in Hk as [v Hv].
  assert (delete k o = ∅) as Hrest.
  { apply map_size_empty_iff. rewrite map_size_delete, Hv. simpl. lia. }
  rewrite <- (insert_delete_id o k v Hv), Hrest, insert_empty.
  apply dom_singleton_L.
Qed.

(** X8: among the filters with no key named like a property of
    [Object.prototype], cvat.users.get lets through the empty one and the one
    whose only property is self with a boolean, and no other. *)
Theorem users_filter_valid (filter : gmap string value) :
  plain filter ∧ checkFilter filter users_fields = inr tt
  ↔ filter = ∅ ∨ ∃ b, filter = {[ "self" := VBool b ]}.
Proof.
  rewrite checkFilter_passes. split.
  - intros [Hplain Hall].
    assert (∀ prop v, filter !! prop = Some v →
              ∃ checker, users_fields !! prop = Some checker ∧ checker v = true)
      as Hwritten.
    { intros prop v Hin.
      by apply (accepted_plain _ _ _ (Hplain prop (mk_is_Some _ _ Hin))), Hall. }
    assert (∀ k, k ≠ "self" → filter !! k = None) as Hother.
    { intros k Hk. destruct (filter !! k) as [v|] eqn:E; [|done].
      destruct (Hwritten k v E) as (checker & Hc & _).
      unfold users_fields in Hc. by rewrite lookup_singleton_ne in Hc. }
    destruct (filter !! "self") as [v|] eqn:E.
    + right. destruct (Hwritten "self" v E) as (checker & Hc & Hv).
      unfold users_fields in Hc. rewrite lookup_singleton_eq in Hc. simplify_eq.
      destruct v as [| |b| | |]; try done. exists b.
      apply map_eq. intros k. destruct (decide (k = "self")) as [->|Hk].
      * by rewrite lookup_singleton_eq.
      * by rewrite lookup_singleton_ne, Hother.
    + left. apply map_empty. intros k. destruct (decide (k = "self")) as [->|Hk];
        [done|by apply Hother].
  - intros [->|[b ->]]; (split; [apply plain_disjoint|]).
    + rewrite dom_empty_L. apply disjoint_empty_l.
    + intros prop v Hin. by rewrite lookup_empty in Hin.
    + apply (bool_decide_unpack _). by vm_compute.
    + intros prop v Hin. apply lookup_singleton_Some in Hin as [<- <-].
      by apply (accepted_written _ _ _ isBoolean).
Qed.

(** X9: cvat.tasks.get lets a filter through exactly when the table accepts
    every property of it and search, like id, comes with no other key. *)
Theorem tasks_get_validate_spec (filter : gmap string value) :
  tasks_get_validate filter = inr tt
  ↔ (∀ prop v, filter !! prop = Some v → accepted tasks_fields prop v)
    ∧ ("search" ∈ dom filter → dom filter = {[ "search" ]})
    ∧ ("id" ∈ dom filter → dom filter = {[ "id" ]}).
Proof.
  rewrite <- checkFilter_passes. unfold tasks_get_validate. split.
  - destruct (checkFilter filter tasks_fields) as [e|[]]; [done|].
    destruct (has_property "search" filter && _) eqn:Hs; [done|].
    destruct (has_property "id" filter && _) eqn:Hi; [done|].
    intros _. split; [done|]. split; intros Hin.
    + apply has_property_dom in Hin as Hhas. rewrite Hhas in Hs.
      by apply only_key.
    + apply has_property_dom in Hin as Hhas. rewrite Hhas in Hi.
      by apply only_key.
  - intros (-> & Hs & Hi).
    destruct (has_property "search" filter) eqn:Es.
    + rewrite (one_key _ _ (Hs (proj1 (has_property_dom _ _) Es))).
      by rewrite !andb_false_r.
    + destruct (has_property "id" filter) eqn:Ei; [|done].
      rewrite (one_key _ _ (Hi (proj1 (has_property_dom _ _) Ei))). done.
Qed.

Lemma jobs_fields_accepted prop v :
  Object_prototype !! prop = None →
  accepted jobs_fields prop v →
  (prop = "taskID" ∨ prop = "jobID") ∧ isInteger v = true.
Proof.
  intros Hplain Hacc.
  apply (accepted_plain _ _ _ Hplain) in Hacc as (checker & Hc & Hv).
  unfold jobs_fields in Hc.
  destruct (decide (prop = "taskID")) as [->|H1].
  { rewrite lookup_insert_eq in Hc. simplify_eq. auto. }
  rewrite lookup_insert_ne in Hc by done.
  apply lookup_singleton_Some in Hc as [<- <-]. auto.
Qed.

(** X10: among the filters with no key named like a property of
    [Object.prototype], cvat.jobs.get lets through those with one property,
    taskID or jobID, whose value is an integer, and no other. *)
Theorem jobs_filter_valid (filter : gmap string value) :
  plain filter ∧ jobs_get_validate filter = inr tt
  ↔ ∃ key v, (key = "taskID" ∨ key = "jobID") ∧ isInteger v = true
             ∧ filter = {[ key := v ]}.
Proof.
  split.
  - intros [Hplain Hvalid]. revert Hvalid. unfold jobs_get_validate.
    destruct (checkFilter filter jobs_fields) as [e|[]] eqn:Hcheck; [done|].
    destruct (has_property "taskID" filter && has_property "jobID" filter) eqn:Hboth;
      [done|].
    destruct (length (Object_keys filter) =? 0)%nat eqn:Hsize; [done|].
    intros _. apply Nat.eqb_neq in Hsize. rewrite length_Object_keys in Hsize.
    apply map_size_ne_0_lookup in Hsize as [key [v Hv]].
    pose proof (proj1 (checkFilter_passes _ _) Hcheck) as Hall.
    destruct (jobs_fields_accepted _ _ (Hplain _ (mk_is_Some _ _ Hv)) (Hall _ _ Hv))
      as [Hkey Hint].
    exists key, v. split; [done|]. split; [done|].
    apply map_eq. intros k. destruct (decide (k = key)) as [->|Hk].
    { by rewrite lookup_singleton_eq. }
    rewrite lookup_singleton_ne by done.
    destruct (filter !! k) as [x|] eqn:E; [|done]. exfalso.
    destruct (jobs_fields_accepted _ _ (Hplain _ (mk_is_Some _ _ E)) (Hall _ _ E))
      as [Hkey' _].
    assert (has_property "taskID" filter && has_property "jobID" filter = true);
      [|congruence].
    apply andb_true_iff.
    destruct Hkey as [->| ->], Hkey' as [->| ->]; try done;
      split; by eapply has_property_lookup.
  - intros (key & v & Hkey & Hint & ->). split; [|by apply jobs_get_validate_single].
    intros prop [x Hx]. apply lookup_singleton_Some in Hx as [<- _].
    by destruct Hkey as [->| ->].
Qed.

(** The table of cvat.tasks.get has a checker for the seven fields of the
    query and for nothing else. *)
Lemma tasks_fields_keys name checker :
  tasks_fields !! name = Some checker → name ∈ query_fields.
Proof.
  unfold tasks_fields, query_fields. intros Hc.
  destruct (decide (name = "name")) as [->|?]; [set_solver|].
  rewrite lookup_insert_ne in Hc by done.
  destruct (decide (name = "id")) as [->|?]; [set_solver|].
  rewrite lookup_insert_ne in Hc by done.
  destruct (decide (name = "owner")) as [->|?]; [set_solver|].
  rewrite lookup_insert_ne in Hc by done.
  destruct (decide (name = "assignee")) as [->|?]; [set_solver|].
  rewrite lookup_insert_ne in Hc by done.
  destruct (decide (name = "search")) as [->|?]; [set_solver|].
  rewrite lookup_insert_ne in Hc by done.
  destruct (decide (name = "status")) as [->|?]; [set_solver|].
  rewrite lookup_insert_ne in Hc by done.
  apply lookup_singleton_Some in Hc as [<- _]. set_solver.
Qed.

(** X11: for a filter that passes validation and has no key named like a
    property of [Object.prototype], the query of cvat.tasks.get leaves no
    property out: it has one parameter for each key of the filter; and for
    every filter the names of the parameters are distinct and come in the
    order name, owner, assignee, search, status, mode, id. *)
Theorem tasks_query_per_key (filter : gmap string value) :
  (plain filter → tasks_get_validate filter = inr tt →
   length (tasks_searchParams filter) = size filter)
  ∧ (tasks_searchParams filter).*1 `sublist_of` query_fields
  ∧ NoDup (tasks_searchParams filter).*1.
Proof.
  rewrite tasks_searchParams_spec.
  assert ((params_of filter query_fields).*1
          = List.filter (fun field => bool_decide (is_Some (filter !! field))) query_fields)
    as Hnames.
  { unfold params_of. generalize query_fields. intros l.
    induction l as [|field l IH]; [done|]. simpl.
    destruct (filter !! field) as [v|] eqn:E; simpl; [f_equal|]; exact IH. }
  assert (NoDup query_fields) as Hnodup.
  { apply (bool_decide_unpack _). by vm_compute. }
  assert ((params_of filter query_fields).*1 `sublist_of` query_fields) as Hsub.
  { rewrite Hnames. generalize query_fields. intros l.
    induction l as [|field l IH]; [done|]. simpl.
    destruct (bool_decide _); [by apply sublist_skip|by apply sublist_cons]. }
  split; [|split; [done|by eapply sublist_NoDup]].
  intros Hplain Hvalid.
  rewrite <- (length_fmap fst), <- size_dom.
  change (size (dom filter)) with (length (elements (dom filter))).
  apply Permutation_length, NoDup_Permutation.
  - by eapply sublist_NoDup.
  - apply NoDup_elements.
  - intros name. rewrite elem_of_elements, elem_of_dom, Hnames.
    rewrite list_elem_of_In, filter_In, <- list_elem_of_In, bool_decide_eq_true.
    split; [by intros [_ ?]|]. intros [v Hv]. split; [|by eexists].
    unfold tasks_get_validate in Hvalid.
    destruct (checkFilter filter tasks_fields) as [e|[]] eqn:Hcheck; [done|].
    pose proof (proj1 (checkFilter_passes _ _) Hcheck _ _ Hv) as Hacc.
    apply (accepted_plain _ _ _ (Hplain _ (mk_is_Some _ _ Hv))) in Hacc
      as (checker & Hc & _).
    by eapply tasks_fields_keys.
Qed.

End ValidFilters.

Lemma tasks_query_per_key_witness :
  plain {[ "status" := VString "completed"; "name" := VString "a" ]}
  ∧ tasks_get_validate (host := demo_host)
    {[ "status" := VString "completed"; "name" := VString "a" ]} = inr tt
  ∧ length (tasks_searchParams (host := demo_host)
              {[ "status" := VString "completed"; "name" := VString "a" ]}) = 2%nat
  ∧ tasks_searchParams (host := demo_host)
      {[ "status" := VString "completed"; "name" := VString "a" ]}
    = [("name", "a"); ("status", "completed")].
Proof.
  assert (tasks_get_validate (host := demo_host)
            {[ "status" := VString "completed"; "name" := VString "a" ]} = inr tt)
    as Hvalid by reflexivity.
  assert (plain {[ "status" := VString "completed"; "name" := VString "a" ]})
    as Hplain.
  { apply plain_disjoint. apply (bool_decide_unpack _). vm_compute. reflexivity. }
  split; [exact Hplain|]. split; [exact Hvalid|]. split; [|reflexivity].
  rewrite (proj1 (tasks_query_per_key (host := demo_host) _) Hplain Hvalid).
  reflexivity.
Defined.

(** ** The requests of the three operations *)

Section Requests.

Context `{host : Host} `{proxy : ServerProxy}.

Lemma appends_le {A} n k (m : M A) : (n ≤ k)%nat → appends n m → appends k m.
Proof.
  intros Hle Hm w. destruct (Hm w) as (Hh & made & Hc & Hlen).
  split; [done|]. exists made. split; [done|lia].
Qed.

Lemma appends_lift {A} (r : result A) : appends 0 (lift r).
Proof. intros w. split; [done|]. exists []. split; [by rewrite app_nil_r|done]. Qed.

Lemma appends_ret {A} (a : A) : appends 0 (ret a).
Proof. apply (appends_lift (inr a)). Qed.

Lemma appends_request {A} c (f : Server -> result A * Server) : appends 1 (request c f).
Proof.
  intros w. unfold request. destruct (f (server w)) as [r s]. simpl.
  split; [done|]. exists [c]. split; [done|simpl; lia].
Qed.

Lemma appends_bind {A B} n k (m : M A) (f : A -> M B) :
  appends n m → (∀ a, appends k (f a)) → appends (n + k) (bind m f).
Proof.
  intros Hm Hf w. unfold bind.
  destruct (Hm w) as (Hh & made & Hc & Hlen).
  destruct (m w) as [[e|a] w1]; simpl in *.
  - split; [done|]. exists made. split; [done|lia].
  - destruct (Hf a w1) as (Hh' & made' & Hc' & Hlen').
    split; [congruence|]. exists (made ++ made')%list.
    rewrite Hc', Hc, <- app_assoc. split; [done|]. rewrite length_app. lia.
Qed.

Lemma appends_filter_by_id jobID jobs : appends 0 (filter_by_id jobID jobs).
Proof.
  induction jobs as [|job rest IH]; simpl; [apply appends_ret|].
  apply (appends_bind 0 0); [apply appends_lift|]. intros id.
  apply (appends_bind 0 0); [done|]. intros kept. apply appends_ret.
Qed.

Lemma appends_tasks_get filter : appends 1 (tasks_get filter).
Proof.
  unfold tasks_get.
  apply (appends_bind 0 1); [apply appends_lift|]. intros _.
  apply (appends_bind 1 0); [apply appends_request|]. intros tasks.
  apply appends_ret.
Qed.

(** X12: the three operations never write to hidden and only add to the
    requests already made: cvat.users.get and cvat.tasks.get at most one,
    cvat.jobs.get at most two. *)
Theorem requests_bound (filter : gmap string value) :
  appends 1 (users_get filter)
  ∧ appends 1 (tasks_get filter)
  ∧ appends 2 (jobs_get filter).
Proof.
  split; [|split; [apply appends_tasks_get|]].
  - unfold users_get.
    apply (appends_bind 0 1); [apply appends_lift|]. intros _.
    apply (appends_bind 1 0); [|intros users; apply appends_ret].
    destruct (_ && _); [|apply appends_request].
    apply (appends_bind 1 0); [apply appends_request|]. intros user.
    apply appends_ret.
  - unfold jobs_get.
    apply (appends_bind 0 2); [apply appends_lift|]. intros _.
    apply (appends_bind 2 0).
    + destruct (has_property "taskID" filter).
      * apply (appends_le 1); [lia|]. apply appends_tasks_get.
      * apply (appends_bind 1 1); [apply appends_request|]. intros job.
        apply (appends_bind 0 1); [apply appends_lift|]. intros task_id.
        apply appends_tasks_get.
    + intros tasks. destruct (truthy _); [apply appends_filter_by_id|apply appends_ret].
Qed.

(** Filtering jobs that are all objects raises nothing. *)
Lemma filter_by_id_objects jobID jobs w :
  Forall (fun job => nullish job = false) jobs →
  filter_by_id jobID jobs w
  = (inr (List.filter (fun job => strict_equals (id_of job) jobID) jobs), w).
Proof.
  induction 1 as [|job rest Hjob Hrest IH]; [done|].
  simpl. unfold bind, get_prop, lift. unfold id_of.
  destruct job; simpl in *; try done; rewrite IH; done.
Qed.

(** X13: filtering the jobs by id keeps, in their order, the jobs whose id is
    strictly equal to the one asked for, when every job is an object; a job
    that is undefined or null makes it a TypeError. *)
Theorem filter_by_id_spec (jobID : value) (jobs : list value) (w : world) :
  (Forall (fun job => nullish job = false) jobs →
   filter_by_id jobID jobs w
   = (inr (List.filter (fun job => strict_equals (id_of job) jobID) jobs), w))
  ∧ (Exists (fun job => nullish job = true) jobs →
     filter_by_id jobID jobs w = (inl TypeError, w)).
Proof.
  split; [apply filter_by_id_objects|].
  induction jobs as [|job rest IH]; intros Hex; [by apply Exists_nil in Hex|].
  simpl. unfold bind, get_prop, lift.
  destruct job; simpl; try done;
    apply Exists_cons in Hex as [?|Hex]; try done;
    rewrite (IH Hex); done.
Qed.

(** X14: with an integer taskID alone, cvat.jobs.get makes the one request
    getTasks for id=taskID, never getJob, and returns all the jobs of the
    first task of the answer, made a Task a second time. *)
Theorem jobs_get_by_taskID (taskID : value) (w : world) :
  isInteger taskID = true →
  let query := URLSearchParams_toString [("id", ToString taskID)] in
  jobs_get {[ "taskID" := taskID ]} w
  = answered (Call_getTasks query) (tasks_getTasks query (server w))
      (fun tasks => Task_jobs (new_ Task (hd VUndefined (map (new_ Task) tasks)))) w.
Proof.
  intros Hint query. unfold jobs_get.
  rewrite (jobs_get_validate_single "taskID" taskID) by auto.
  unfold bind at 1. unfold lift at 1.
  assert (has_property "taskID" ({[ "taskID" := taskID ]} : gmap string value) = true)
    as -> by done.
  assert (get_field {[ "taskID" := taskID ]} "taskID" = taskID) as -> by done.
  assert (get_field {[ "taskID" := taskID ]} "jobID" = VUndefined) as -> by done.
  unfold bind at 1. unfold tasks_get, bind, lift.
  rewrite (tasks_get_validate_id _ Hint).
  assert (tasks_searchParams {[ "id" := taskID ]} = [("id", ToString taskID)])
    as -> by done.
  fold query. unfold request, ret, answered, requested.
  by destruct (tasks_getTasks query (server w)) as [[e|tasks] s].
Qed.

(** X15: with an integer jobID other than 0 alone, and a server that answers,
    cvat.jobs.get returns the jobs of the task of that job whose id is
    strictly equal to jobID. *)
Theorem jobs_get_by_jobID (jobID : value) (w : world) job s task_id tasks w' :
  isInteger jobID = true → truthy jobID = true →
  jobs_getJob jobID (server w) = (inr job, s) →
  read_prop job "task_id" = inr task_id →
  tasks_get {[ "id" := task_id ]} (requested (Call_getJob jobID) s w)
    = (inr tasks, w') →
  Forall (fun job => nullish job = false)
    (Task_jobs (new_ Task (hd VUndefined tasks))) →
  jobs_get {[ "jobID" := jobID ]} w
  = (inr (List.filter (fun job => strict_equals (id_of job) jobID)
            (Task_jobs (new_ Task (hd VUndefined tasks)))), w').
Proof.
  intros Hint Htruthy Hjob Hid Htasks Hjobs. unfold jobs_get.
  rewrite (jobs_get_validate_single "jobID" jobID) by auto.
  unfold bind at 1. unfold lift at 1.
  assert (has_property "taskID" ({[ "jobID" := jobID ]} : gmap string value) = false)
    as -> by done.
  assert (get_field {[ "jobID" := jobID ]} "jobID" = jobID) as -> by done.
  unfold bind at 1 2 3. unfold request at 1. rewrite Hjob.
  unfold get_prop, lift at 1. rewrite Hid.
  fold (requested (Call_getJob jobID) s w). rewrite Htasks, Htruthy.
  by apply filter_by_id_objects.
Qed.

(** X16: when the record of the job has a task_id that is not an integer,
    cvat.jobs.get ends with the ArgumentError of cvat.tasks.get on the
    property id, after the request getJob has been made and no other. *)
Theorem jobs_get_bad_task_id (jobID : value) (w : world) job s task_id :
  isInteger jobID = true →
  jobs_getJob jobID (server w) = (inr job, s) →
  read_prop job "task_id" = inr task_id →
  isInteger task_id = false →
  jobs_get {[ "jobID" := jobID ]} w
  = (inl (unsatisfied "id"), requested (Call_getJob jobID) s w).
Proof.
  intros Hint Hjob Hid Hbad. unfold jobs_get.
  rewrite (jobs_get_validate_single "jobID" jobID) by auto.
  unfold bind at 1. unfold lift at 1.
  assert (has_property "taskID" ({[ "jobID" := jobID ]} : gmap string value) = false)
    as -> by done.
  assert (get_field {[ "jobID" := jobID ]} "jobID" = jobID) as -> by done.
  unfold bind at 1 2 3. unfold request at 1. rewrite Hjob.
  unfold get_prop, lift at 1. rewrite Hid.
  unfold tasks_get, bind, lift.
  assert (tasks_get_validate {[ "id" := task_id ]} = inl (unsatisfied "id")) as ->.
  { unfold tasks_get_validate. rewrite checkFilter_one. simpl.
    assert (table_in "id" tasks_fields = true) as -> by done.
    assert (table_call tasks_fields "id" task_id = inr (isInteger task_id)) as -> by done.
    by rewrite Hbad. }
  done.
Qed.

(** X17: when the request getJob fails, cvat.jobs.get fails with the same
    error and does not ask for the tasks. *)
Theorem jobs_get_getJob_fails (jobID : value) (w : world) e s :
  isInteger jobID = true →
  jobs_getJob jobID (server w) = (inl e, s) →
  jobs_get {[ "jobID" := jobID ]} w = (inl e, requested (Call_getJob jobID) s w).
Proof.
  intros Hint Hjob. unfold jobs_get.
  rewrite (jobs_get_validate_single "jobID" jobID) by auto.
  unfold bind at 1. unfold lift at 1.
  assert (has_property "taskID" ({[ "jobID" := jobID ]} : gmap string value) = false)
    as -> by done.
  assert (get_field {[ "jobID" := jobID ]} "jobID" = jobID) as -> by done.
  unfold bind at 1 2. unfold request at 1. by rewrite Hjob.
Qed.

End Requests.

Lemma filter_by_id_spec_witness :
  filter_by_id (host := demo_host) (VInt 1) [VObject 10; VObject 11] demo_world
    = (inr [VObject 11], demo_world)
  ∧ filter_by_id (host := demo_host) (VInt 1) [VObject 10; VUndefined] demo_world
    = (inl TypeError, demo_world).
Proof.
  split.
  - rewrite (proj1 (filter_by_id_spec (host := demo_host) (proxy := demo_proxy)
                      (VInt 1) [VObject 10; VObject 11] demo_world)).
    + reflexivity.
    + repeat constructor.
  - apply (proj2 (filter_by_id_spec (host := demo_host) (proxy := demo_proxy)
                    (VInt 1) [VObject 10; VUndefined] demo_world)).
    apply Exists_cons_tl, Exists_cons_hd. reflexivity.
Defined.

Lemma jobs_get_by_taskID_witness :
  isInteger (VInt 7) = true
  ∧ jobs_get (host := demo_host) {[ "taskID" := VInt 7 ]} demo_world
    = (inr [VObject 10; VObject 11], @World demo_proxy ∅ 1%nat [Call_getTasks "id=7"]).
Proof.
  split; [reflexivity|].
  rewrite (jobs_get_by_taskID (host := demo_host) (proxy := demo_proxy)
             (VInt 7) demo_world); reflexivity.
Defined.

Lemma jobs_get_by_jobID_witness :
  isInteger (VInt 1) = true ∧ truthy (VInt 1) = true
  ∧ jobs_get (host := demo_host) {[ "jobID" := VInt 1 ]} demo_world
    = (inr [VObject 11],
       @World demo_proxy ∅ 2%nat [Call_getJob (VInt 1); Call_getTasks "id=7"]).
Proof.
  split; [reflexivity|]. split; [reflexivity|].
  rewrite (jobs_get_by_jobID (host := demo_host) (proxy := demo_proxy)
             (VInt 1) demo_world (VObject 5) 1%nat (VInt 7) [VObject 1]
             (@World demo_proxy ∅ 2%nat [Call_getJob (VInt 1); Call_getTasks "id=7"]));
    try reflexivity.
  repeat constructor.
Defined.

Lemma jobs_get_bad_task_id_witness :
  read_prop (host := demo_host) (VObject 6) "task_id" = inr VUndefined
  ∧ jobs_get (host := demo_host) (proxy := odd_proxy) {[ "jobID" := VInt 3 ]} odd_world
    = (inl (unsatisfied "id"), @World odd_proxy ∅ 1%nat [Call_getJob (VInt 3)]).
Proof.
  split; [reflexivity|].
  rewrite (jobs_get_bad_task_id (host := demo_host) (proxy := odd_proxy)
             (VInt 3) odd_world (VObject 6) 1%nat VUndefined); reflexivity.
Defined.

Lemma jobs_get_getJob_fails_witness :
  jobs_get (host := demo_host) (proxy := failing_proxy) {[ "jobID" := VInt 3 ]}
    failing_world
  = (inl (ProxyError 503), @World failing_proxy ∅ 1%nat [Call_getJob (VInt 3)]).
Proof.
  rewrite (jobs_get_getJob_fails (host := demo_host) (proxy := failing_proxy)
             (VInt 3) failing_world (ProxyError 503) 1%nat); reflexivity.
Defined.

Lemma ArgumentError_without_request_witness :
  fst (jobs_get (host := demo_host) {[ "jobID" := VString "3" ]} demo_world)
    = inl (unsatisfied "jobID")
  ∧ snd (jobs_get (host := demo_host) {[ "jobID" := VString "3" ]} demo_world)
    = demo_world.
Proof.
  assert (fst (jobs_get (host := demo_host) {[ "jobID" := VString "3" ]} demo_world)
          = inl (unsatisfied "jobID")) as H by reflexivity.
  split; [exact H|].
  apply (proj1 (proj2 (ArgumentError_without_request
                         (host := demo_host) (proxy := demo_proxy)
                         ltac:(discriminate) ltac:(discriminate)
                         ltac:(discriminate) ltac:(discriminate)
                         ltac:(intros v s job task_id Hjob Hid; simpl in Hjob;
                               injection Hjob as <-; simpl in Hid;
                               injection Hid as <-; reflexivity)
                         {[ "jobID" := VString "3" ]} demo_world _)) H).
Defined.

(** ** The handlers and the world *)

Section HandlersWorld.

Context `{host : Host} `{proxy : ServerProxy}.

Lemma cleared_same_but_context w w1 : same_but_context w w1 → cleared w1 = cleared w.
Proof.
  intros (Hs & Hc & Hh). unfold cleared, with_hidden. f_equal; [|done..].
  apply map_eq. intros k.
  destruct (decide (k = "jobID")) as [->|Hj]; [by rewrite !lookup_delete_eq|].
  rewrite !(lookup_delete_ne _ "jobID") by done.
  destruct (decide (k = "taskID")) as [->|Ht]; [by rewrite !lookup_delete_eq|].
  rewrite !(lookup_delete_ne _ "taskID") by done. by apply Hh.
Qed.

(** Around a function that leaves the world as it is, the wrapper only
    clears the two slots. *)
Lemma setupEnv_world (f : wrapped) this args w :
  (∀ this args w, snd (f this args w) = w) →
  snd (setupEnv f this args w) = cleared w.
Proof.
  intros Hf.
  destruct this as [| | | | |r]; try (by rewrite setupEnv_other).
  destruct (has_class r Task) eqn:HT.
  { rewrite (setupEnv_Task f r args w HT).
    pose proof (Hf (VObject r) args
                  (with_hidden (<["taskID" := prop r "id"]> (hidden w)) w)) as Hw.
    destruct (f (VObject r) args _) as [res w1]. simpl in *. subst w1.
    apply cleared_same_but_context.
    apply (same_but_context_set "taskID"); [by left|apply same_but_context_refl]. }
  destruct (has_class r Job) eqn:HJ; [|by rewrite setupEnv_other].
  destruct (read_prop (prop r "task") "id") as [e|task_id] eqn:Hid.
  - rewrite setupEnv_unfold. simpl. rewrite HT, HJ.
    unfold bind at 1 2 3 4. unfold get_prop at 1 2. simpl.
    unfold get_prop, lift. rewrite Hid. simpl.
    apply cleared_same_but_context.
    apply (same_but_context_set "jobID"); [by right|apply same_but_context_refl].
  - rewrite (setupEnv_Job f r task_id args w HT HJ Hid).
    pose proof (Hf (VObject r) args
                  (with_hidden (<["taskID" := task_id]>
                                  (<["jobID" := prop r "id"]> (hidden w))) w)) as Hw.
    destruct (f (VObject r) args _) as [res w1]. simpl in *. subst w1.
    apply cleared_same_but_context.
    exact (same_but_context_set "taskID" task_id w (or_introl eq_refl)
             (with_hidden (<["jobID" := prop r "id"]> (hidden w)) w)
             (same_but_context_set "jobID" (prop r "id") w (or_intror eq_refl)
                w (same_but_context_refl w))).
Qed.

(** An arrow function of the module leaves the world as it is. *)
Lemma arrow_world m args w : snd (arrow m args w) = w.
Proof.
  destruct m; simpl; try done; unfold bind, get_prop, global_get, lift, ret, throw.
  - destruct (read_prop window_cvat_config "host"); [done|].
    destruct (read_prop window_cvat_config "api"); [done|].
    by destruct (read_prop implementAPI_this "taskID").
  - by destruct (global "Statistics").
  - destruct (global "ObjectState"); [|done]. by destruct (construct _ _).
  - destruct (global "FrameData"); [|done].
    by destruct (read_prop implementAPI_this "taskID").
Qed.

(** X19: no handler of the job API or the task API asks anything of the
    server or writes to hidden: whatever the context, the arguments and the
    outcome, it leaves the world as it found it, less hidden.taskID and
    hidden.jobID. *)
Theorem handlers_leave_world a m this args w :
  snd (implementation a m this args w) = cleared w.
Proof.
  unfold implementation. apply setupEnv_world. intros _ args' w'. apply arrow_world.
Qed.

(** X20: with a valid context the thirteen handlers whose body is empty or a
    constant return their placeholder: undefined, 0 for annotations.search,
    null for annotations.select. *)
Theorem stubs_return_placeholder a m this args w v :
  valid_context this → placeholder m = Some v →
  implementation a m this args w = (inr v, cleared w).
Proof.
  intros Hvalid Hm. unfold implementation.
  destruct (setupEnv_valid_frame (fun _ args => arrow m args) this args w Hvalid)
    as (w1 & Hsame & ->).
  rewrite arrow_world, (cleared_same_but_context _ _ Hsame).
  destruct m; simplify_eq/=; done.
Qed.

(** X21: annotations.dump gives one address for every job and task: it is
    made of the host and the api of the configuration and of the taskID of
    the [this] of implementAPI, not of the context of the call; when that
    [this] is undefined or null it is a TypeError. *)
Theorem dump_ignores_context a this args w config :
  valid_context this → window_cvat_config = VObject config →
  (∀ outer, implementAPI_this = VObject outer →
     implementation a annotations_dump this args w
     = (inr (VString (ToString (prop config "host") ++ "/api/"
                      ++ ToString (prop config "api") ++ "/tasks/"
                      ++ ToString (prop outer "taskID") ++ "/annotations/dump")),
        cleared w))
  ∧ (nullish implementAPI_this = true →
     implementation a annotations_dump this args w = (inl TypeError, cleared w)).
Proof.
  intros Hvalid Hconfig. unfold implementation.
  destruct (setupEnv_valid_frame (fun _ args => arrow annotations_dump args)
              this args w Hvalid) as (w1 & Hsame & ->).
  rewrite arrow_world, (cleared_same_but_context _ _ Hsame).
  simpl. unfold bind, get_prop, lift, ret. rewrite Hconfig. simpl.
  split.
  - intros outer ->. done.
  - intros Hnull. by destruct implementAPI_this.
Qed.

End HandlersWorld.

Lemma stubs_return_placeholder_witness :
  valid_context (host := demo_host) (VObject 2)
  ∧ implementation (host := demo_host) jobAPI annotations_select (VObject 2)
      [VInt 0; VInt 10; VInt 20] demo_world = (inr VNull, demo_world)
  ∧ implementation (host := demo_host) taskAPI logs_save (VObject 2) [] demo_world
    = (inr VUndefined, demo_world).
Proof.
  assert (valid_context (host := demo_host) (VObject 2)) as Hvalid.
  { right. split; [reflexivity|]. exists (VInt 7). reflexivity. }
  split; [exact Hvalid|]. split.
  - rewrite (stubs_return_placeholder (host := demo_host) (proxy := demo_proxy)
               jobAPI annotations_select (VObject 2) _ demo_world VNull Hvalid);
      reflexivity.
  - rewrite (stubs_return_placeholder (host := demo_host) (proxy := demo_proxy)
               taskAPI logs_save (VObject 2) _ demo_world VUndefined Hvalid);
      reflexivity.
Defined.

Lemma dump_ignores_context_witness :
  implementation (host := window_host) jobAPI annotations_dump (VObject 2) [] demo_world
    = (inr (VString "http://localhost:7000/api/v1/tasks/undefined/annotations/dump"),
       demo_world)
  ∧ implementation (host := window_host) taskAPI annotations_dump (VObject 1) []
      demo_world
    = (inr (VString "http://localhost:7000/api/v1/tasks/undefined/annotations/dump"),
       demo_world)
  ∧ implementation (host := demo_host) jobAPI annotations_dump (VObject 2) [] demo_world
    = (inl TypeError, demo_world).
Proof.
  assert (valid_context (host := window_host) (VObject 2)) as Hjob.
  { right. split; [reflexivity|]. exists (VInt 7). reflexivity. }
  assert (valid_context (host := window_host) (VObject 1)) as Htask.
  { left. reflexivity. }
  assert (valid_context (host := demo_host) (VObject 2)) as Hjob'.
  { right. split; [reflexivity|]. exists (VInt 7). reflexivity. }
  split; [|split].
  - rewrite (proj1 (dump_ignores_context (host := window_host) (proxy := demo_proxy)
                      jobAPI (VObject 2) [] demo_world 30%positive Hjob eq_refl) 50%positive eq_refl).
    reflexivity.
  - rewrite (proj1 (dump_ignores_context (host := window_host) (proxy := demo_proxy)
                      taskAPI (VObject 1) [] demo_world 30%positive Htask eq_refl) 50%positive eq_refl).
    reflexivity.
  - rewrite (proj2 (dump_ignores_context (host := demo_host) (proxy := demo_proxy)
                      jobAPI (VObject 2) [] demo_world 30%positive Hjob' eq_refl) eq_refl).
    reflexivity.
Defined.
